(** * PrivyPlay: the confidential dice ledger and its client-side decoding

    Shallow embedding of [contracts/PrivyPlay.sol] (the ledger transitions
    [buyPoints], [startGame], [submitGuess]) and of the decoding part of
    [refreshPlayerData] in the web client, with the properties of the
    specification stated over them. *)

From stdpp Require Import gmap strings list fin_maps.

Local Open Scope Z_scope.

(** ** Machine integers *)

Definition two64 : Z := 2 ^ 64.
Definition two8 : Z := 2 ^ 8.
Definition two256 : Z := 2 ^ 256.
Definition max_uint64 : Z := two64 - 1.

(** An account address (160 bits). *)
Definition address := N.

(** ** The ciphertext engine *)

Module FHE.

(** Modelled from the spec: the ciphertext engine ([@fhevm/solidity]'s [FHE]
    library) is an external dependency that is not part of the sources. A
    handle is an immutable reference to an encrypted scalar of one fixed type;
    here it is the record of the operation that produced the ciphertext, so
    two operations never share a handle unless they are the same operation on
    the same operands. [U8Null], [U64Null] and [BNull] are the sentinel
    [bytes32(0)] of each type. *)
Inductive euint8 : Type :=
  | U8Null
  | U8Trivial (v : Z)
  | U8Add (a b : euint8)
  | U8Rand (nonce : nat) (upperBound : Z).

Inductive ebool : Type :=
  | BNull
  | BGe64 (a b : euint64)
  | BGe8 (a b : euint8)
  | BEq (a b : ebool)
  | BImported (ext : N) (v : bool)
with euint64 : Type :=
  | U64Null
  | U64Trivial (v : Z)
  | U64Add (a b : euint64)
  | U64Sub (a b : euint64)
  | U64Select (c : ebool) (a b : euint64).

(** A handle of any of the three types, as the access control list sees it. *)
Inductive handle : Type :=
  | HBool (h : ebool)
  | HU8 (h : euint8)
  | HU64 (h : euint64).

#[global] Instance euint8_inhabited : Inhabited euint8 := populate U8Null.
#[global] Instance euint64_inhabited : Inhabited euint64 := populate U64Null.
#[global] Instance ebool_inhabited : Inhabited ebool := populate BNull.

(** Modelled from the spec: the engine's mutable state, the access grants
    made so far (append-only) and the number of random draws made so far. *)
Record Engine : Type := mkEngine {
  acl : list (handle * address);
  draws : nat;
}.

Definition empty_engine : Engine := {| acl := []; draws := 0 |}.

(** Modelled from the spec: [isGranted(handle, principal)], a lookup in the
    grant relation. *)
Definition granted (e : Engine) (h : handle) (p : address) : Prop :=
  (h, p) ∈ acl e.

Section Plaintexts.
(** The engine's entropy: the value behind the [n]-th random draw. *)
Variable entropy : nat → Z.

(** Modelled from the spec: the plaintext behind a handle. Arithmetic is
    that of the handle's width (8 or 64 bits, wrapping), comparisons give a
    bit, [select] is the ternary, and a sentinel reads as zero / false. *)
Fixpoint dec8 (h : euint8) : Z :=
  match h with
  | U8Null => 0
  | U8Trivial v => v mod two8
  | U8Add a b => (dec8 a + dec8 b) mod two8
  | U8Rand n upperBound => (entropy n mod upperBound) mod two8
  end.

Fixpoint decBool (h : ebool) : bool :=
  match h with
  | BNull => false
  | BGe64 a b => dec64 b <=? dec64 a
  | BGe8 a b => dec8 b <=? dec8 a
  | BEq a b => eqb (decBool a) (decBool b)
  | BImported _ v => v
  end
with dec64 (h : euint64) : Z :=
  match h with
  | U64Null => 0
  | U64Trivial v => v mod two64
  | U64Add a b => (dec64 a + dec64 b) mod two64
  | U64Sub a b => (dec64 a - dec64 b) mod two64
  | U64Select c a b => if decBool c then dec64 a else dec64 b
  end.
End Plaintexts.

(** Modelled from the spec: the operations of the engine used by the ledger.
    Each returns the handle of its result together with the engine's next
    state. *)
Definition asEuint64 (v : Z) (e : Engine) : euint64 * Engine := (U64Trivial v, e).
Definition asEuint8 (v : Z) (e : Engine) : euint8 * Engine := (U8Trivial v, e).
Definition add64 (a b : euint64) (e : Engine) : euint64 * Engine := (U64Add a b, e).
Definition sub64 (a b : euint64) (e : Engine) : euint64 * Engine := (U64Sub a b, e).
Definition add8 (a b : euint8) (e : Engine) : euint8 * Engine := (U8Add a b, e).
Definition ge64 (a b : euint64) (e : Engine) : ebool * Engine := (BGe64 a b, e).
Definition ge8 (a b : euint8) (e : Engine) : ebool * Engine := (BGe8 a b, e).
Definition eqBool (a b : ebool) (e : Engine) : ebool * Engine := (BEq a b, e).
Definition select64 (c : ebool) (a b : euint64) (e : Engine) : euint64 * Engine :=
  (U64Select c a b, e).

(** Modelled from the spec: [randomBounded(n)], a fresh draw in [[0, n)]. *)
Definition randEuint8 (upperBound : Z) (e : Engine) : euint8 * Engine :=
  (U8Rand (draws e) upperBound, {| acl := acl e; draws := S (draws e) |}).

(** Modelled from the spec: [grant(handle, principal)]. *)
Definition allow (h : handle) (p : address) (e : Engine) : unit * Engine :=
  (tt, {| acl := (h, p) :: acl e; draws := draws e |}).

(** Modelled from the spec: [importExternal(bytes, proof)]. The input
    verifier of the engine decides whether [proof] authenticates the external
    ciphertext [ext] for the calling contract and the sending account, and if
    it does, which bit the ciphertext holds. A proof that fails yields no
    handle. *)
Definition Verifier : Type := address → address → N → list Z → option bool.

Definition fromExternal (verify : Verifier) (contract sender : address)
    (ext : N) (inputProof : list Z) (e : Engine) : option (ebool * Engine) :=
  match verify contract sender ext inputProof with
  | Some v => Some (BImported ext v, e)
  | None => None
  end.

End FHE.

Import FHE.

(** ** The ledger: [contract PrivyPlay] *)

Definition POINTS_PER_ETH : Z := 1000000.
Definition PLAY_COST : Z := 100.
Definition WIN_REWARD : Z := 1000.
Definition ether : Z := 10 ^ 18.

Inductive Event : Type :=
  | PointsPurchased (player : address) (ethAmount points : Z)
  | GameStarted (player : address)
  | GuessSubmitted (player : address).

(** The storage of the contract (its six mappings), the engine it talks to
    and the log of emitted events. *)
Record World : Type := mkWorld {
  fhe : Engine;
  balances : gmap address euint64;
  lastRoll : gmap address euint8;
  lastOutcome : gmap address ebool;
  lastReward : gmap address euint64;
  roundEligible : gmap address ebool;
  gameActive : gmap address bool;
  events : list Event;
}.

Definition genesis : World :=
  {| fhe := empty_engine; balances := ∅; lastRoll := ∅; lastOutcome := ∅;
     lastReward := ∅; roundEligible := ∅; gameActive := ∅; events := [] |}.

(** Reading a Solidity mapping: an absent key reads as the zero value. *)
Definition getBalance (w : World) (a : address) : euint64 := default U64Null (balances w !! a).
Definition getLastRoll (w : World) (a : address) : euint8 := default U8Null (lastRoll w !! a).
Definition getLastOutcome (w : World) (a : address) : ebool := default BNull (lastOutcome w !! a).
Definition getLastReward (w : World) (a : address) : euint64 := default U64Null (lastReward w !! a).
Definition roundEligibleOf (w : World) (a : address) : ebool := default BNull (roundEligible w !! a).
Definition isGameActive (w : World) (a : address) : bool := default false (gameActive w !! a).

Definition set_fhe (e : Engine) (w : World) : World :=
  {| fhe := e; balances := balances w; lastRoll := lastRoll w;
     lastOutcome := lastOutcome w; lastReward := lastReward w;
     roundEligible := roundEligible w; gameActive := gameActive w;
     events := events w |}.
Definition set_balance (a : address) (h : euint64) (w : World) : World :=
  {| fhe := fhe w; balances := <[a := h]> (balances w); lastRoll := lastRoll w;
     lastOutcome := lastOutcome w; lastReward := lastReward w;
     roundEligible := roundEligible w; gameActive := gameActive w;
     events := events w |}.
Definition set_lastRoll (a : address) (h : euint8) (w : World) : World :=
  {| fhe := fhe w; balances := balances w; lastRoll := <[a := h]> (lastRoll w);
     lastOutcome := lastOutcome w; lastReward := lastReward w;
     roundEligible := roundEligible w; gameActive := gameActive w;
     events := events w |}.
Definition set_lastOutcome (a : address) (h : ebool) (w : World) : World :=
  {| fhe := fhe w; balances := balances w; lastRoll := lastRoll w;
     lastOutcome := <[a := h]> (lastOutcome w); lastReward := lastReward w;
     roundEligible := roundEligible w; gameActive := gameActive w;
     events := events w |}.
Definition set_lastReward (a : address) (h : euint64) (w : World) : World :=
  {| fhe := fhe w; balances := balances w; lastRoll := lastRoll w;
     lastOutcome := lastOutcome w; lastReward := <[a := h]> (lastReward w);
     roundEligible := roundEligible w; gameActive := gameActive w;
     events := events w |}.
Definition set_roundEligible (a : address) (h : ebool) (w : World) : World :=
  {| fhe := fhe w; balances := balances w; lastRoll := lastRoll w;
     lastOutcome := lastOutcome w; lastReward := lastReward w;
     roundEligible := <[a := h]> (roundEligible w); gameActive := gameActive w;
     events := events w |}.
Definition set_gameActive (a : address) (b : bool) (w : World) : World :=
  {| fhe := fhe w; balances := balances w; lastRoll := lastRoll w;
     lastOutcome := lastOutcome w; lastReward := lastReward w;
     roundEligible := roundEligible w; gameActive := <[a := b]> (gameActive w);
     events := events w |}.
Definition add_event (ev : Event) (w : World) : World :=
  {| fhe := fhe w; balances := balances w; lastRoll := lastRoll w;
     lastOutcome := lastOutcome w; lastReward := lastReward w;
     roundEligible := roundEligible w; gameActive := gameActive w;
     events := events w ++ [ev] |}.

(** *** Transactions: state threaded through the body, dropped on failure *)

Inductive Error : Type :=
  | Revert (reason : string)        (* a failed [require] *)
  | Panic (code : Z)                (* checked arithmetic, 0x11 on overflow *)
  | InvalidProof.                   (* the engine rejected an input proof *)

Definition Tx (A : Type) : Type := World → Error + A * World.

Definition ret {A} (x : A) : Tx A := λ w, inr (x, w).
Definition bind {A B} (m : Tx A) (k : A → Tx B) : Tx B :=
  λ w, match m w with
       | inl err => inl err
       | inr (x, w') => k x w'
       end.
Definition fail {A} (err : Error) : Tx A := λ _, inl err.
Definition gets {A} (f : World → A) : Tx A := λ w, inr (f w, w).
Definition modify (f : World → World) : Tx unit := λ w, inr (tt, f w).

Notation "'let*' x ':=' m 'in' k" := (bind m (λ x, k))
  (at level 10, x name, m at level 100, k at level 200).
Notation "m ';;' k" := (bind m (λ _, k))
  (at level 100, k at level 200, right associativity).

Definition require (cond : bool) (reason : string) : Tx unit :=
  if cond then ret tt else fail (Revert reason).

(** A call into the engine. *)
Definition engine {A} (op : Engine → A * Engine) : Tx A :=
  λ w, let '(x, e) := op (fhe w) in inr (x, set_fhe e w).

(** [a * b] on [uint256], checked as Solidity 0.8 checks it. *)
Definition checked_mul (a b : Z) : Tx Z :=
  if a * b <? two256 then ret (a * b) else fail (Panic 17).

(** What the chain keeps of a transaction: the final state when the body
    returns, the state before the call when it fails. *)
Definition call (tx : Tx unit) (w : World) : World * option Error :=
  match tx w with
  | inr (_, w') => (w', None)
  | inl err => (w, Some err)
  end.

Section Ledger.
(** The address of the deployed contract, and the engine's input verifier. *)
Variable this : address.
Variable verify : Verifier.

Definition allowThis (h : handle) : Tx unit := engine (allow h this).
Definition allowTo (h : handle) (p : address) : Tx unit := engine (allow h p).

Definition importExternal (sender : address) (ext : N) (inputProof : list Z) : Tx ebool :=
  λ w, match fromExternal verify this sender ext inputProof (fhe w) with
       | Some (h, e) => inr (h, set_fhe e w)
       | None => inl InvalidProof
       end.

(** [function buyPoints() external payable], with [msg.sender] and
    [msg.value] (in wei) as arguments. *)
Definition buyPoints (sender : address) (value : Z) : Tx unit :=
  require (0 <? value) "No ETH sent" ;;
  let* product := checked_mul value POINTS_PER_ETH in
  let pointsValue := product / ether in
  require (0 <? pointsValue) "Amount too small" ;;
  require (pointsValue <=? max_uint64) "Points overflow" ;;
  let* encryptedPoints := engine (asEuint64 (pointsValue mod two64)) in
  let* bal := gets (λ w, getBalance w sender) in
  let* total := engine (add64 bal encryptedPoints) in
  modify (set_balance sender total) ;;
  let* b1 := gets (λ w, getBalance w sender) in
  allowThis (HU64 b1) ;;
  let* b2 := gets (λ w, getBalance w sender) in
  allowTo (HU64 b2) sender ;;
  modify (add_event (PointsPurchased sender value pointsValue)).

(** [function startGame() external]. *)
Definition startGame (sender : address) : Tx unit :=
  let* active := gets (λ w, isGameActive w sender) in
  require (negb active) "Game already active" ;;
  modify (set_gameActive sender true) ;;
  let* cost := engine (asEuint64 PLAY_COST) in
  let* bal := gets (λ w, getBalance w sender) in
  let* hasEnough := engine (ge64 bal cost) in
  let* bal1 := gets (λ w, getBalance w sender) in
  let* debited := engine (sub64 bal1 cost) in
  let* bal2 := gets (λ w, getBalance w sender) in
  let* newBalance := engine (select64 hasEnough debited bal2) in
  modify (set_balance sender newBalance) ;;
  modify (set_roundEligible sender hasEnough) ;;
  let* rnd := engine (randEuint8 6) in
  let* one := engine (asEuint8 1) in
  let* diceRoll := engine (add8 rnd one) in
  modify (set_lastRoll sender diceRoll) ;;
  let* b1 := gets (λ w, getBalance w sender) in
  allowThis (HU64 b1) ;;
  let* b2 := gets (λ w, getBalance w sender) in
  allowTo (HU64 b2) sender ;;
  let* el := gets (λ w, roundEligibleOf w sender) in
  allowThis (HBool el) ;;
  let* r1 := gets (λ w, getLastRoll w sender) in
  allowThis (HU8 r1) ;;
  let* r2 := gets (λ w, getLastRoll w sender) in
  allowTo (HU8 r2) sender ;;
  modify (add_event (GameStarted sender)).

(** [function submitGuess(externalEbool guess, bytes calldata inputProof)]. *)
Definition submitGuess (sender : address) (guess : N) (inputProof : list Z) : Tx unit :=
  let* active := gets (λ w, isGameActive w sender) in
  require active "No active game" ;;
  modify (set_gameActive sender false) ;;
  let* encryptedGuess := importExternal sender guess inputProof in
  let* roll := gets (λ w, getLastRoll w sender) in
  let* four := engine (asEuint8 4) in
  let* isBig := engine (ge8 roll four) in
  let* isWin := engine (eqBool isBig encryptedGuess) in
  let* prize := engine (asEuint64 WIN_REWARD) in
  let* zero1 := engine (asEuint64 0) in
  let* rewardIfWin := engine (select64 isWin prize zero1) in
  let* el := gets (λ w, roundEligibleOf w sender) in
  let* zero2 := engine (asEuint64 0) in
  let* reward := engine (select64 el rewardIfWin zero2) in
  let* bal := gets (λ w, getBalance w sender) in
  let* total := engine (add64 bal reward) in
  modify (set_balance sender total) ;;
  modify (set_lastOutcome sender isWin) ;;
  modify (set_lastReward sender reward) ;;
  let* b1 := gets (λ w, getBalance w sender) in
  allowThis (HU64 b1) ;;
  let* b2 := gets (λ w, getBalance w sender) in
  allowTo (HU64 b2) sender ;;
  let* o1 := gets (λ w, getLastOutcome w sender) in
  allowThis (HBool o1) ;;
  let* o2 := gets (λ w, getLastOutcome w sender) in
  allowTo (HBool o2) sender ;;
  let* w1 := gets (λ w, getLastReward w sender) in
  allowThis (HU64 w1) ;;
  let* w2 := gets (λ w, getLastReward w sender) in
  allowTo (HU64 w2) sender ;;
  modify (add_event (GuessSubmitted sender)).

End Ledger.

(** ** Closed forms of the three transitions *)

(** The state [buyPoints] commits when all three of its checks pass. *)
Definition buyPoints_post (this sender : address) (value : Z) (w : World) : World :=
  let points := value * POINTS_PER_ETH / ether in
  let total := U64Add (getBalance w sender) (U64Trivial (points mod two64)) in
  {| fhe := {| acl := (HU64 total, sender) :: (HU64 total, this) :: acl (fhe w);
               draws := draws (fhe w) |};
     balances := <[sender := total]> (balances w);
     lastRoll := lastRoll w;
     lastOutcome := lastOutcome w;
     lastReward := lastReward w;
     roundEligible := roundEligible w;
     gameActive := gameActive w;
     events := events w ++ [PointsPurchased sender value points] |}.

(** The state [startGame] commits when no round is active. *)
Definition startGame_post (this sender : address) (w : World) : World :=
  let b := getBalance w sender in
  let hasEnough := BGe64 b (U64Trivial PLAY_COST) in
  let newBalance := U64Select hasEnough (U64Sub b (U64Trivial PLAY_COST)) b in
  let diceRoll := U8Add (U8Rand (draws (fhe w)) 6) (U8Trivial 1) in
  {| fhe := {| acl := (HU8 diceRoll, sender) :: (HU8 diceRoll, this)
                      :: (HBool hasEnough, this)
                      :: (HU64 newBalance, sender) :: (HU64 newBalance, this)
                      :: acl (fhe w);
               draws := S (draws (fhe w)) |};
     balances := <[sender := newBalance]> (balances w);
     lastRoll := <[sender := diceRoll]> (lastRoll w);
     lastOutcome := lastOutcome w;
     lastReward := lastReward w;
     roundEligible := <[sender := hasEnough]> (roundEligible w);
     gameActive := <[sender := true]> (gameActive w);
     events := events w ++ [GameStarted sender] |}.

(** The state [submitGuess] commits when a round is active and the proof
    authenticates a guess holding the bit [g]. *)
Definition submitGuess_post (this sender : address) (guess : N) (g : bool) (w : World) : World :=
  let isBig := BGe8 (getLastRoll w sender) (U8Trivial 4) in
  let isWin := BEq isBig (BImported guess g) in
  let rewardIfWin := U64Select isWin (U64Trivial WIN_REWARD) (U64Trivial 0) in
  let reward := U64Select (roundEligibleOf w sender) rewardIfWin (U64Trivial 0) in
  let total := U64Add (getBalance w sender) reward in
  {| fhe := {| acl := (HU64 reward, sender) :: (HU64 reward, this)
                      :: (HBool isWin, sender) :: (HBool isWin, this)
                      :: (HU64 total, sender) :: (HU64 total, this)
                      :: acl (fhe w);
               draws := draws (fhe w) |};
     balances := <[sender := total]> (balances w);
     lastRoll := lastRoll w;
     lastOutcome := <[sender := isWin]> (lastOutcome w);
     lastReward := <[sender := reward]> (lastReward w);
     roundEligible := roundEligible w;
     gameActive := <[sender := false]> (gameActive w);
     events := events w ++ [GuessSubmitted sender] |}.

(** ** Sequences of calls *)

Inductive Call : Type :=
  | CallBuyPoints (sender : address) (value : Z)
  | CallStartGame (sender : address)
  | CallSubmitGuess (sender : address) (guess : N) (inputProof : list Z).

Section CallDefinitions.
Variable this : address.
Variable verify : Verifier.

Definition body (c : Call) : Tx unit :=
  match c with
  | CallBuyPoints sender value => buyPoints this sender value
  | CallStartGame sender => startGame this sender
  | CallSubmitGuess sender guess inputProof =>
      submitGuess this verify sender guess inputProof
  end.

(** The state the chain holds after the call, whether it passed or failed. *)
Definition perform (w : World) (c : Call) : World := fst (call (body c) w).

Definition perform_all (cs : list Call) (w : World) : World := foldl perform w cs.

(** A call that neither starts nor resolves a round of account [a]: any
    funding call, and any call sent by another account. *)
Definition keeps_round (a : address) (c : Call) : Prop :=
  match c with
  | CallBuyPoints _ _ => True
  | CallStartGame sender => sender ≠ a
  | CallSubmitGuess sender _ _ => sender ≠ a
  end.
End CallDefinitions.

(** ** The client: decoding in [refreshPlayerData] *)

Module Client.

Fixpoint repeat_string (s : string) (n : nat) : string :=
  match n with
  | O => ""
  | S n' => s +:+ repeat_string s n'
  end.

(** [`0x${'0'.repeat(64)}`] *)
Definition ZERO_HASH : string := "0x" +:+ repeat_string "0" 64.

(** What the five contract reads resolve to. Here a handle is the hex string
    the chain client returns for a [bytes32]. *)
Record Reads : Type := mkReads {
  encryptedBalance : string;
  encryptedRoll : string;
  encryptedOutcome : string;
  encryptedReward : string;
  active : bool;
}.

(** A settled promise. *)
Inductive Outcome (A : Type) : Type :=
  | Resolved (x : A)
  | Rejected (message : string).
Arguments Resolved {A} x.
Arguments Rejected {A} message.

(** One batch sent to the decryption service: handle/contract pairs. *)
Definition Batch : Type := list (string * string).

(** [String.prototype.replace] with a string pattern: the first occurrence
    of [pattern] is replaced, a string without it comes back as it is. *)
Fixpoint replace_first (pattern replacement s : string) : string :=
  match s with
  | EmptyString => if String.prefix pattern s then replacement else s
  | String c rest =>
      if String.prefix pattern s
      then replacement +:+ String.substring (String.length pattern)
                             (String.length s - String.length pattern) s
      else String c (replace_first pattern replacement rest)
  end.

(** The ephemeral key pair of [instance.generateKeypair()]. *)
Record Keypair : Type := mkKeypair {
  publicKey : string;
  privateKey : string;
}.

(** The typed data of [instance.createEIP712(...)], each part an opaque
    encoding: the domain, the [UserDecryptRequestVerification] entry of its
    types, and the message. *)
Record EIP712 : Type := mkEIP712 {
  domain : string;
  UserDecryptRequestVerification : string;
  message : string;
}.

(** The eight arguments of [instance.userDecrypt(...)]. *)
Record DecryptRequest : Type := mkDecryptRequest {
  req_handleContractPairs : Batch;
  req_privateKey : string;
  req_publicKey : string;
  req_signature : string;
  req_contractAddresses : list string;
  req_userAddress : string;
  req_startTimeStamp : string;
  req_durationDays : string;
}.

(** The relayer instance: the three calls [decryptHandles] makes on it, each
    of which may throw or reject. [createEIP712] takes the public key, the
    contract addresses, the start time stamp and the duration in days. *)
Record Instance : Type := mkInstance {
  generateKeypair : Outcome Keypair;
  createEIP712 : string → list string → string → string → Outcome EIP712;
  userDecrypt : DecryptRequest → Outcome (gmap string string);
}.

(** The wallet signer: [signTypedData(domain, types, message)]. *)
Record Signer : Type := mkSigner {
  signTypedData : string → string → string → Outcome string;
}.

Section Refresh.
(** JavaScript numbers and [Number(...)] on strings. *)
Context {number : Type}.
Variable Number : string → number.
(** The configured contract address ([../config/contracts]). *)
Variable CONTRACT_ADDRESS : string.

(** The component state that [refreshPlayerData] writes. *)
Record View : Type := mkView {
  balance : option string;
  lastRoll : option number;
  lastOutcome : option bool;
  lastReward : option string;
  gameActive : bool;
  statusMessage : option string;
  busyRefresh : bool;
}.

(** What the hooks and the clock provide. [publicClient]: the chain client
    and what its five reads settle to. [signerPromise]: the promise and what
    it settles to, [Some (Resolved None)] being a promise of [undefined].
    [startTimeStamp]: [Math.floor(Date.now() / 1000).toString()]. *)
Record Env : Type := mkEnv {
  isConnected : bool;
  address : option string;
  publicClient : option (Outcome Reads);
  instance : option Instance;
  zamaLoading : bool;
  signerPromise : option (Outcome (option Signer));
  startTimeStamp : string;
}.

Definition isConfigured : bool := bool_decide (CONTRACT_ADDRESS ≠ ZERO_HASH).

Definition canUseWallet (env : Env) : bool :=
  isConfigured && isConnected env && bool_decide (is_Some (address env))
  && bool_decide (is_Some (publicClient env)).

Definition canDecrypt (env : Env) : bool :=
  canUseWallet env && bool_decide (is_Some (instance env))
  && bool_decide (is_Some (signerPromise env)) && negb (zamaLoading env).

(** [decryptHandles]: what the call settles to, and the batches that went
    out to the decryption service. Every step before [userDecrypt] may fail,
    and then nothing goes out. *)
Definition decryptHandles (env : Env) (handles : list string)
    : Outcome (gmap string string) * list Batch :=
  match instance env, address env with
  | Some inst, Some addr =>
      match generateKeypair inst with
      | Rejected reason => (Rejected reason, [])
      | Resolved keypair =>
          let durationDays := "7" in
          let contractAddresses := [CONTRACT_ADDRESS] in
          match createEIP712 inst (publicKey keypair) contractAddresses
                  (startTimeStamp env) durationDays with
          | Rejected reason => (Rejected reason, [])
          | Resolved eip712 =>
              match signerPromise env with
              | Some (Rejected reason) => (Rejected reason, [])
              | Some (Resolved (Some resolvedSigner)) =>
                  match signTypedData resolvedSigner (domain eip712)
                          (UserDecryptRequestVerification eip712) (message eip712) with
                  | Rejected reason => (Rejected reason, [])
                  | Resolved signature =>
                      let handleContractPairs :=
                        map (λ handle, (handle, CONTRACT_ADDRESS)) handles in
                      (userDecrypt inst
                         {| req_handleContractPairs := handleContractPairs;
                            req_privateKey := privateKey keypair;
                            req_publicKey := publicKey keypair;
                            req_signature := replace_first "0x" "" signature;
                            req_contractAddresses := contractAddresses;
                            req_userAddress := addr;
                            req_startTimeStamp := startTimeStamp env;
                            req_durationDays := durationDays |},
                       [handleContractPairs])
                  end
              | _ => (Rejected "Signer not available", [])
              end
          end
      end
  | _, _ => (Resolved ∅, [])
  end.

Definition set_balance (x : option string) (v : View) : View :=
  {| balance := x; lastRoll := lastRoll v; lastOutcome := lastOutcome v;
     lastReward := lastReward v; gameActive := gameActive v;
     statusMessage := statusMessage v; busyRefresh := busyRefresh v |}.
Definition set_lastRoll (x : option number) (v : View) : View :=
  {| balance := balance v; lastRoll := x; lastOutcome := lastOutcome v;
     lastReward := lastReward v; gameActive := gameActive v;
     statusMessage := statusMessage v; busyRefresh := busyRefresh v |}.
Definition set_lastOutcome (x : option bool) (v : View) : View :=
  {| balance := balance v; lastRoll := lastRoll v; lastOutcome := x;
     lastReward := lastReward v; gameActive := gameActive v;
     statusMessage := statusMessage v; busyRefresh := busyRefresh v |}.
Definition set_lastReward (x : option string) (v : View) : View :=
  {| balance := balance v; lastRoll := lastRoll v; lastOutcome := lastOutcome v;
     lastReward := x; gameActive := gameActive v;
     statusMessage := statusMessage v; busyRefresh := busyRefresh v |}.
Definition set_gameActive (x : bool) (v : View) : View :=
  {| balance := balance v; lastRoll := lastRoll v; lastOutcome := lastOutcome v;
     lastReward := lastReward v; gameActive := x;
     statusMessage := statusMessage v; busyRefresh := busyRefresh v |}.
Definition set_statusMessage (x : option string) (v : View) : View :=
  {| balance := balance v; lastRoll := lastRoll v; lastOutcome := lastOutcome v;
     lastReward := lastReward v; gameActive := gameActive v;
     statusMessage := x; busyRefresh := busyRefresh v |}.
Definition set_busyRefresh (x : bool) (v : View) : View :=
  {| balance := balance v; lastRoll := lastRoll v; lastOutcome := lastOutcome v;
     lastReward := lastReward v; gameActive := gameActive v;
     statusMessage := statusMessage v; busyRefresh := x |}.

(** The [catch] and [finally] blocks. *)
Definition on_error (v : View) : View :=
  set_statusMessage (Some "Unable to refresh encrypted data.") v.
Definition finally (v : View) : View := set_busyRefresh false v.

(** Lines 160 to 183: the four fields mapped through the response. *)
Definition decode (r : Reads) (decryptedValues : gmap string string) (v : View) : View :=
  let v :=
    if bool_decide (encryptedBalance r ≠ ZERO_HASH)
    then set_balance (Some (default "0" (decryptedValues !! encryptedBalance r))) v
    else set_balance (Some "0") v in
  let v :=
    if bool_decide (encryptedRoll r ≠ ZERO_HASH)
    then
      let rawRoll := decryptedValues !! encryptedRoll r in
      set_lastRoll (match rawRoll with
                    | Some s => if bool_decide (s = "") then None else Some (Number s)
                    | None => None
                    end) v
    else set_lastRoll None v in
  let v :=
    if bool_decide (encryptedOutcome r ≠ ZERO_HASH)
    then
      let rawOutcome := decryptedValues !! encryptedOutcome r in
      match rawOutcome with
      | Some s => set_lastOutcome (Some (bool_decide (s = "1"))) v
      | None => v
      end
    else set_lastOutcome None v in
  if bool_decide (encryptedReward r ≠ ZERO_HASH)
  then set_lastReward (Some (default "0" (decryptedValues !! encryptedReward r))) v
  else set_lastReward (Some "0") v.

(** [refreshPlayerData]: the state it leaves, and the batches that went out
    to the decryption service. *)
Definition refreshPlayerData (env : Env) (v : View) : View * list Batch :=
  match publicClient env, address env with
  | Some reads, Some _ =>
      if negb (canUseWallet env) then (v, [])
      else
        let v := set_busyRefresh true v in
        match reads with
        | Rejected _ => (finally (on_error v), [])
        | Resolved r =>
            let v := set_gameActive (active r) v in
            if negb (canDecrypt env) then
              (finally (set_lastReward None (set_lastOutcome None
                 (set_lastRoll None (set_balance None v)))), [])
            else
              let handlesToDecrypt :=
                filter (λ handle, handle ≠ ZERO_HASH)
                  [encryptedBalance r; encryptedRoll r; encryptedOutcome r;
                   encryptedReward r] in
              if bool_decide (length handlesToDecrypt = 0%nat) then
                (finally (set_lastReward (Some "0") (set_lastOutcome None
                   (set_lastRoll None (set_balance (Some "0") v)))), [])
              else
                match decryptHandles env handlesToDecrypt with
                | (Resolved decryptedValues, sent) =>
                    (finally (decode r decryptedValues v), sent)
                | (Rejected _, sent) => (finally (on_error v), sent)
                end
        end
  | _, _ => (v, [])
  end.

End Refresh.

End Client.

(** ** Concrete states used in the examples *)

(** A verifier for the examples: a proof is a list of bytes; the empty proof
    authenticates nothing, any other proof attests the low bit of its first
    byte. *)
Definition demo_verify : Verifier :=
  λ _ _ _ inputProof,
    match inputProof with
    | [] => None
    | x :: _ => Some (Z.odd x)
    end.

(** The contract sits at address 9, the player at address 7. *)
Definition demo_this : address := 9%N.
Definition demo_player : address := 7%N.

(** The player after funding 1 ether (1,000,000 points). *)
Definition demo_funded : World :=
  perform demo_this demo_verify genesis (CallBuyPoints demo_player ether).

(** The player after funding and starting a round. *)
Definition demo_pending : World :=
  perform demo_this demo_verify demo_funded (CallStartGame demo_player).

(** The player after a round started with no points at all. *)
Definition demo_broke_pending : World :=
  perform demo_this demo_verify genesis (CallStartGame demo_player).

(** The player after funding 50 points, less than one round costs. *)
Definition demo_short : World :=
  perform demo_this demo_verify genesis (CallBuyPoints demo_player (50 * 10 ^ 12)).

(** The player holding the largest balance the ciphertext can carry. *)
Definition demo_full : World :=
  perform demo_this demo_verify genesis
    (CallBuyPoints demo_player (max_uint64 * 10 ^ 12)).

(** An environment for the examples: configured, connected, able to decrypt;
    the decryption service answers every batch with the same record. *)
Definition demo_contract : string := "0x1111111111111111111111111111111111111111".

Definition demo_keypair : Client.Keypair :=
  {| Client.publicKey := "0xaa"; Client.privateKey := "0xbb" |}.

Definition demo_instance (answer : gmap string string) : Client.Instance :=
  {| Client.generateKeypair := Client.Resolved demo_keypair;
     Client.createEIP712 := λ key contracts start days,
       Client.Resolved
         {| Client.domain := "domain";
            Client.UserDecryptRequestVerification := key;
            Client.message := start +:+ "/" +:+ days |};
     Client.userDecrypt := λ _, Client.Resolved answer |}.

Definition demo_signer : Client.Signer :=
  {| Client.signTypedData := λ _ _ message, Client.Resolved ("0x" +:+ message) |}.

Definition demo_env (r : Client.Reads) (answer : gmap string string) : Client.Env :=
  {| Client.isConnected := true;
     Client.address := Some "0x7777777777777777777777777777777777777777";
     Client.publicClient := Some (Client.Resolved r);
     Client.instance := Some (demo_instance answer);
     Client.zamaLoading := false;
     Client.signerPromise := Some (Client.Resolved (Some demo_signer));
     Client.startTimeStamp := "1700000000" |}.

(** The wallet of the same player with the relayer still loading, and with a
    chain client whose reads reject. *)
Definition demo_env_loading (r : Client.Reads) : Client.Env :=
  {| Client.isConnected := true;
     Client.address := Some "0x7777777777777777777777777777777777777777";
     Client.publicClient := Some (Client.Resolved r);
     Client.instance := None;
     Client.zamaLoading := true;
     Client.signerPromise := None;
     Client.startTimeStamp := "1700000000" |}.

Definition demo_env_offline : Client.Env :=
  {| Client.isConnected := true;
     Client.address := Some "0x7777777777777777777777777777777777777777";
     Client.publicClient := Some (Client.Rejected "network");
     Client.instance := None;
     Client.zamaLoading := false;
     Client.signerPromise := None;
     Client.startTimeStamp := "1700000000" |}.

Definition demo_view : Client.View (number := Z) :=
  {| Client.balance := None; Client.lastRoll := None; Client.lastOutcome := Some true;
     Client.lastReward := None; Client.gameActive := false;
     Client.statusMessage := None; Client.busyRefresh := false |}.

(** An account that never acted: four sentinel handles, no round active. *)
Definition demo_idle_reads : Client.Reads :=
  {| Client.encryptedBalance := Client.ZERO_HASH;
     Client.encryptedRoll := Client.ZERO_HASH;
     Client.encryptedOutcome := Client.ZERO_HASH;
     Client.encryptedReward := Client.ZERO_HASH;
     Client.active := false |}.

(** An account with three of its four handles written. *)
Definition demo_played_reads : Client.Reads :=
  {| Client.encryptedBalance := "0x01";
     Client.encryptedRoll := "0x02";
     Client.encryptedOutcome := Client.ZERO_HASH;
     Client.encryptedReward := "0x04";
     Client.active := true |}.

(** The player holding the largest balance, with a round started on it. *)
Definition demo_full_pending : World :=
  perform demo_this demo_verify demo_full (CallStartGame demo_player).

(** ** Runs of the ledger and its event log *)

(** [msg.sender] of a call. *)
Definition sender_of (c : Call) : address :=
  match c with
  | CallBuyPoints sender _ => sender
  | CallStartGame sender => sender
  | CallSubmitGuess sender _ _ => sender
  end.

(** How many [GameStarted(a)] and [GuessSubmitted(a)] events a log holds. *)
Fixpoint count_started (a : address) (log : list Event) : nat :=
  match log with
  | [] => 0
  | GameStarted p :: rest =>
      if decide (p = a) then S (count_started a rest) else count_started a rest
  | _ :: rest => count_started a rest
  end.

Fixpoint count_resolved (a : address) (log : list Event) : nat :=
  match log with
  | [] => 0
  | GuessSubmitted p :: rest =>
      if decide (p = a) then S (count_resolved a rest) else count_resolved a rest
  | _ :: rest => count_resolved a rest
  end.

(** The handle [startGame] stores as [lastRoll]: a draw below 6, plus one. *)
Definition is_dice_roll (h : euint8) : Prop :=
  ∃ nonce, h = U8Add (U8Rand nonce 6) (U8Trivial 1).

(** The shape of one account's record. Either the account never started a
    round, or its roll is a dice roll with an eligibility flag beside it;
    either it never resolved a round, or its outcome is stored, its reward
    is that outcome gated by an eligibility flag, and while the account is
    idle that outcome is the guess compared with the stored roll and that
    flag is the stored one. *)
Definition record_shape (w : World) (a : address) : Prop :=
  ((getLastRoll w a = U8Null ∧ roundEligibleOf w a = BNull
    ∧ getLastOutcome w a = BNull ∧ isGameActive w a = false)
   ∨ (is_dice_roll (getLastRoll w a) ∧ roundEligibleOf w a ≠ BNull))
  ∧ ((getLastOutcome w a = BNull ∧ getLastReward w a = U64Null)
     ∨ ∃ el,
         getLastReward w a
         = U64Select el
             (U64Select (getLastOutcome w a) (U64Trivial WIN_REWARD) (U64Trivial 0))
             (U64Trivial 0)
         ∧ getLastOutcome w a ≠ BNull
         ∧ (isGameActive w a = false →
            el = roundEligibleOf w a
            ∧ ∃ ext g,
                getLastOutcome w a
                = BEq (BGe8 (getLastRoll w a) (U8Trivial 4)) (BImported ext g))).


(** A call that cannot resolve the round of account [a]: anything but a
    [submitGuess] of [a] whose proof authenticates. *)
Definition leaves_round_open (this : address) (verify : Verifier) (a : address)
    (c : Call) : Prop :=
  match c with
  | CallSubmitGuess sender guess inputProof =>
      sender = a → verify this sender guess inputProof = None
  | _ => True
  end.
(** * Proofs *)

(** Running a transaction body on a symbolic state: call by value, so that
    the state is a record again after every statement. *)
Ltac exec :=
  cbv beta iota zeta delta
    [buyPoints startGame submitGuess allowThis allowTo importExternal
     fromExternal bind ret fail gets modify require engine checked_mul
     getBalance getLastRoll getLastOutcome getLastReward roundEligibleOf
     isGameActive set_fhe set_balance set_lastRoll set_lastOutcome
     set_lastReward set_roundEligible set_gameActive add_event allow
     asEuint64 asEuint8 add64 sub64 add8 ge64 ge8 eqBool select64 randEuint8
     fhe balances lastRoll lastOutcome lastReward roundEligible gameActive
     events acl draws fst snd negb].

Ltac step :=
  cbv beta iota zeta delta [bind ret fail gets modify require checked_mul].

Ltac norm := exec; rewrite ?lookup_insert_eq; cbv beta iota delta [default].

Section Runs.
Variable this : address.
Variable verify : Verifier.

Lemma buyPoints_no_value sender value w :
  value ≤ 0 →
  buyPoints this sender value w = inl (Revert "No ETH sent").
Proof.
  intros Hv. unfold buyPoints. step.
  destruct (Z.ltb_spec 0 value); [lia | reflexivity].
Qed.

Lemma buyPoints_panic sender value w :
  0 < value → two256 ≤ value * POINTS_PER_ETH →
  buyPoints this sender value w = inl (Panic 17).
Proof.
  intros Hv Hm. unfold buyPoints. step.
  destruct (Z.ltb_spec 0 value); [| lia].
  destruct (Z.ltb_spec (value * POINTS_PER_ETH) two256); [lia | reflexivity].
Qed.

Lemma buyPoints_too_small sender value w :
  0 < value → value * POINTS_PER_ETH < two256 →
  value * POINTS_PER_ETH / ether ≤ 0 →
  buyPoints this sender value w = inl (Revert "Amount too small").
Proof.
  intros Hv Hm Hp. unfold buyPoints. step.
  destruct (Z.ltb_spec 0 value); [| lia].
  destruct (Z.ltb_spec (value * POINTS_PER_ETH) two256); [| lia]. step.
  destruct (Z.ltb_spec 0 (value * POINTS_PER_ETH / ether)); [lia | reflexivity].
Qed.

Lemma buyPoints_too_large sender value w :
  0 < value → value * POINTS_PER_ETH < two256 →
  max_uint64 < value * POINTS_PER_ETH / ether →
  buyPoints this sender value w = inl (Revert "Points overflow").
Proof.
  intros Hv Hm Hp. unfold buyPoints. step.
  destruct (Z.ltb_spec 0 value); [| lia].
  destruct (Z.ltb_spec (value * POINTS_PER_ETH) two256); [| lia]. step.
  destruct (Z.ltb_spec 0 (value * POINTS_PER_ETH / ether));
    [| unfold max_uint64, two64 in Hp; lia].
  destruct (Z.leb_spec (value * POINTS_PER_ETH / ether) max_uint64);
    [lia | reflexivity].
Qed.

Lemma buyPoints_run sender value w :
  0 < value → value * POINTS_PER_ETH < two256 →
  0 < value * POINTS_PER_ETH / ether ≤ max_uint64 →
  buyPoints this sender value w = inr (tt, buyPoints_post this sender value w).
Proof.
  intros Hv Hm [Hp Hq]. unfold buyPoints. step.
  destruct (Z.ltb_spec 0 value); [| lia].
  destruct (Z.ltb_spec (value * POINTS_PER_ETH) two256); [| lia]. step.
  destruct (Z.ltb_spec 0 (value * POINTS_PER_ETH / ether)); [| lia].
  destruct (Z.leb_spec (value * POINTS_PER_ETH / ether) max_uint64); [| lia].
  unfold buyPoints_post. norm. reflexivity.
Qed.

Lemma startGame_active sender w :
  isGameActive w sender = true →
  startGame this sender w = inl (Revert "Game already active").
Proof. intros Ha. unfold startGame. step. rewrite Ha. reflexivity. Qed.

Lemma startGame_run sender w :
  isGameActive w sender = false →
  startGame this sender w = inr (tt, startGame_post this sender w).
Proof.
  intros Ha. unfold startGame, startGame_post. step. rewrite Ha.
  norm. reflexivity.
Qed.

Lemma submitGuess_idle sender guess inputProof w :
  isGameActive w sender = false →
  submitGuess this verify sender guess inputProof w = inl (Revert "No active game").
Proof. intros Ha. unfold submitGuess. step. rewrite Ha. reflexivity. Qed.

Lemma submitGuess_rejected sender guess inputProof w :
  isGameActive w sender = true →
  verify this sender guess inputProof = None →
  submitGuess this verify sender guess inputProof w = inl InvalidProof.
Proof.
  intros Ha Hp. unfold submitGuess. step. rewrite Ha.
  cbv beta iota delta [importExternal fromExternal]. rewrite Hp. reflexivity.
Qed.

Lemma submitGuess_run sender guess inputProof g w :
  isGameActive w sender = true →
  verify this sender guess inputProof = Some g →
  submitGuess this verify sender guess inputProof w
  = inr (tt, submitGuess_post this sender guess g w).
Proof.
  intros Ha Hp. unfold submitGuess, submitGuess_post. step. rewrite Ha.
  cbv beta iota delta [importExternal fromExternal]. rewrite Hp.
  norm. reflexivity.
Qed.

End Runs.

(** ** Plaintexts stay in their domain *)

Lemma dec64_range entropy (h : euint64) : 0 ≤ dec64 entropy h < two64.
Proof.
  assert (Hpos : 0 < two64) by (unfold two64; lia).
  induction h as [ | v | a IHa b IHb | a IHa b IHb | c a IHa b IHb ];
    cbn [dec64].
  - lia.
  - apply Z.mod_pos_bound; exact Hpos.
  - apply Z.mod_pos_bound; exact Hpos.
  - apply Z.mod_pos_bound; exact Hpos.
  - destruct (decBool entropy c); assumption.
Qed.

Lemma dec8_range entropy (h : euint8) : 0 ≤ dec8 entropy h < two8.
Proof.
  assert (Hpos : 0 < two8) by (unfold two8; lia).
  destruct h; cbn [dec8]; try (apply Z.mod_pos_bound; exact Hpos); lia.
Qed.

(** ** The three transitions, call by call *)

Section Calls.
Variable this : address.
Variable verify : Verifier.

(** Every call either leaves the state as it was or commits its closed form. *)
Lemma buyPoints_call sender value w :
  (∃ err, call (buyPoints this sender value) w = (w, Some err))
  ∨ call (buyPoints this sender value) w = (buyPoints_post this sender value w, None).
Proof.
  unfold call.
  destruct (Z.le_gt_cases value 0) as [Hv | Hv].
  { left. eexists. rewrite buyPoints_no_value by exact Hv. reflexivity. }
  destruct (Z.le_gt_cases two256 (value * POINTS_PER_ETH)) as [Hm | Hm].
  { left. eexists. rewrite buyPoints_panic by (exact Hv || exact Hm). reflexivity. }
  destruct (Z.le_gt_cases (value * POINTS_PER_ETH / ether) 0) as [Hp | Hp].
  { left. eexists. rewrite buyPoints_too_small by assumption. reflexivity. }
  destruct (Z.le_gt_cases (value * POINTS_PER_ETH / ether) max_uint64) as [Hq | Hq].
  - right. rewrite buyPoints_run by (try split; assumption). reflexivity.
  - left. eexists. rewrite buyPoints_too_large by assumption. reflexivity.
Qed.

Lemma startGame_call sender w :
  call (startGame this sender) w
  = if isGameActive w sender
    then (w, Some (Revert "Game already active"))
    else (startGame_post this sender w, None).
Proof.
  unfold call. destruct (isGameActive w sender) eqn:Ha.
  - rewrite startGame_active by exact Ha. reflexivity.
  - rewrite startGame_run by exact Ha. reflexivity.
Qed.

Lemma submitGuess_call sender guess inputProof w :
  call (submitGuess this verify sender guess inputProof) w
  = if isGameActive w sender
    then match verify this sender guess inputProof with
         | Some g => (submitGuess_post this sender guess g w, None)
         | None => (w, Some InvalidProof)
         end
    else (w, Some (Revert "No active game")).
Proof.
  unfold call. destruct (isGameActive w sender) eqn:Ha.
  - destruct (verify this sender guess inputProof) as [g |] eqn:Hp.
    + rewrite (submitGuess_run _ _ _ _ _ g) by assumption. reflexivity.
    + rewrite submitGuess_rejected by assumption. reflexivity.
  - rewrite submitGuess_idle by exact Ha. reflexivity.
Qed.

Lemma perform_keeps_round a c w :
  keeps_round a c →
  roundEligibleOf (perform this verify w c) a = roundEligibleOf w a
  ∧ getLastRoll (perform this verify w c) a = getLastRoll w a
  ∧ isGameActive (perform this verify w c) a = isGameActive w a.
Proof.
  unfold perform. destruct c as [s v | s | s guess pf]; cbn [body keeps_round]; intros Hk.
  - destruct (buyPoints_call s v w) as [[err ->] | ->]; cbn [fst]; [done |].
    unfold roundEligibleOf, getLastRoll, isGameActive, buyPoints_post; cbn. done.
  - rewrite startGame_call. destruct (isGameActive w s); cbn [fst]; [done |].
    unfold roundEligibleOf, getLastRoll, isGameActive, startGame_post; cbn.
    rewrite !lookup_insert_ne by exact Hk. done.
  - rewrite submitGuess_call.
    destruct (isGameActive w s); cbn [fst]; [| done].
    destruct (verify this s guess pf); cbn [fst]; [| done].
    unfold roundEligibleOf, getLastRoll, isGameActive, submitGuess_post; cbn.
    rewrite !lookup_insert_ne by exact Hk. done.
Qed.

Lemma perform_all_keeps_round a cs w :
  Forall (keeps_round a) cs →
  roundEligibleOf (perform_all this verify cs w) a = roundEligibleOf w a
  ∧ getLastRoll (perform_all this verify cs w) a = getLastRoll w a
  ∧ isGameActive (perform_all this verify cs w) a = isGameActive w a.
Proof.
  intros Hcs. revert w. induction Hcs as [| c cs Hc _ IH]; intros w.
  - done.
  - change (perform_all this verify (c :: cs) w)
      with (perform_all this verify cs (perform this verify w c)).
    destruct (IH (perform this verify w c)) as (-> & -> & ->).
    apply perform_keeps_round. exact Hc.
Qed.

End Calls.

(** ** What a successful call tells *)

Section Inversions.
Variable this : address.
Variable verify : Verifier.

Lemma buyPoints_inv sender value w w' :
  buyPoints this sender value w = inr (tt, w') →
  w' = buyPoints_post this sender value w.
Proof.
  intros Hrun.
  destruct (buyPoints_call this sender value w) as [[err Hc] | Hc];
    unfold call in Hc; rewrite Hrun in Hc; congruence.
Qed.

Lemma startGame_inv sender w w' :
  startGame this sender w = inr (tt, w') →
  isGameActive w sender = false ∧ w' = startGame_post this sender w.
Proof.
  intros Hrun. pose proof (startGame_call this sender w) as Hc.
  unfold call in Hc. rewrite Hrun in Hc.
  destruct (isGameActive w sender); [discriminate | split; congruence].
Qed.

Lemma submitGuess_inv sender guess inputProof w w' :
  submitGuess this verify sender guess inputProof w = inr (tt, w') →
  ∃ g, isGameActive w sender = true
       ∧ verify this sender guess inputProof = Some g
       ∧ w' = submitGuess_post this sender guess g w.
Proof.
  intros Hrun. pose proof (submitGuess_call this verify sender guess inputProof w) as Hc.
  unfold call in Hc. rewrite Hrun in Hc.
  destruct (isGameActive w sender); [| discriminate].
  destruct (verify this sender guess inputProof) as [g |]; [| discriminate].
  exists g. repeat split; congruence.
Qed.

End Inversions.

(** Membership in a grant list is settled entry by entry. *)
Ltac in_acl := unfold granted; cbn [fhe acl]; rewrite ?elem_of_cons; tauto.

(** ** The caller's record after a call *)

(** Reading the fields of an account in the state a call commits. *)
Ltac fields :=
  unfold getBalance, getLastRoll, getLastOutcome, getLastReward, roundEligibleOf,
    isGameActive, buyPoints_post, startGame_post, submitGuess_post in *;
  cbn [balances lastRoll lastOutcome lastReward roundEligible gameActive events
       fhe acl draws] in *.

Ltac same_key := rewrite ?lookup_insert_eq in *; cbn [default from_option id] in *.
Ltac other_key H := rewrite ?(lookup_insert_ne _ _ _ _ H) in *.

(** The caller's own record in the state each transition commits. *)
Lemma buyPoints_post_self (this s : address) (value : Z) (w : World) :
  let w' := buyPoints_post this s value w in
  getLastRoll w' s = getLastRoll w s
  ∧ roundEligibleOf w' s = roundEligibleOf w s
  ∧ getLastOutcome w' s = getLastOutcome w s
  ∧ getLastReward w' s = getLastReward w s
  ∧ isGameActive w' s = isGameActive w s
  ∧ getBalance w' s
    = U64Add (getBalance w s)
        (U64Trivial ((value * POINTS_PER_ETH / ether) mod two64)).
Proof. cbv zeta. fields. same_key. repeat split; reflexivity. Qed.

Lemma startGame_post_self (this s : address) (w : World) :
  let w' := startGame_post this s w in
  getLastRoll w' s = U8Add (U8Rand (draws (fhe w)) 6) (U8Trivial 1)
  ∧ roundEligibleOf w' s = BGe64 (getBalance w s) (U64Trivial PLAY_COST)
  ∧ getLastOutcome w' s = getLastOutcome w s
  ∧ getLastReward w' s = getLastReward w s
  ∧ isGameActive w' s = true
  ∧ getBalance w' s
    = U64Select (BGe64 (getBalance w s) (U64Trivial PLAY_COST))
        (U64Sub (getBalance w s) (U64Trivial PLAY_COST)) (getBalance w s).
Proof. cbv zeta. fields. same_key. repeat split; reflexivity. Qed.

Lemma submitGuess_post_self (this s : address) (guess : N) (g : bool) (w : World) :
  let w' := submitGuess_post this s guess g w in
  let isWin := BEq (BGe8 (getLastRoll w s) (U8Trivial 4)) (BImported guess g) in
  let reward :=
    U64Select (roundEligibleOf w s)
      (U64Select isWin (U64Trivial WIN_REWARD) (U64Trivial 0)) (U64Trivial 0) in
  getLastRoll w' s = getLastRoll w s
  ∧ roundEligibleOf w' s = roundEligibleOf w s
  ∧ getLastOutcome w' s = isWin
  ∧ getLastReward w' s = reward
  ∧ isGameActive w' s = false
  ∧ getBalance w' s = U64Add (getBalance w s) reward.
Proof. cbv zeta. fields. same_key. repeat split; reflexivity. Qed.

(** ** The client *)

Lemma canDecrypt_inv (CONTRACT_ADDRESS : string) (env : Client.Env) :
  Client.canDecrypt CONTRACT_ADDRESS env = true →
  Client.canUseWallet CONTRACT_ADDRESS env = true
  ∧ is_Some (Client.instance env)
  ∧ is_Some (Client.signerPromise env)
  ∧ is_Some (Client.address env).
Proof.
  unfold Client.canDecrypt, Client.canUseWallet. intros H.
  repeat (apply andb_true_iff in H as [H ?]).
  repeat match goal with
         | Hb : bool_decide _ = true |- _ => apply bool_decide_eq_true in Hb
         end.
  rewrite !andb_true_iff, !bool_decide_eq_true. tauto.
Qed.

Lemma pairs_handles (CONTRACT_ADDRESS : string) (handles : list string) :
  fst <$> map (λ handle : string, (handle, CONTRACT_ADDRESS)) handles = handles.
Proof.
  induction handles as [| h hs IH]; [reflexivity |].
  cbn [map fmap list_fmap] in *. f_equal. exact IH.
Qed.

Section ClientLemmas.
Context {number : Type}.
Variable Number : string → number.
Variable CONTRACT_ADDRESS : string.

(** The batches of a refresh: none, or one holding the handles that are not
    the sentinel. *)
Lemma refresh_batches (env : Client.Env) (v : @Client.View number) :
  snd (Client.refreshPlayerData Number CONTRACT_ADDRESS env v) = []
  ∨ ∃ r, Client.publicClient env = Some (Client.Resolved r)
         ∧ snd (Client.refreshPlayerData Number CONTRACT_ADDRESS env v)
           = [map (λ handle : string, (handle, CONTRACT_ADDRESS))
                (filter (λ handle, handle ≠ Client.ZERO_HASH)
                   [Client.encryptedBalance r; Client.encryptedRoll r;
                    Client.encryptedOutcome r; Client.encryptedReward r])].
Proof.
  unfold Client.refreshPlayerData, Client.decryptHandles.
  destruct (Client.publicClient env) as [[r | msg] |]; [| | left; reflexivity].
  2:{ left. destruct (Client.address env); [| reflexivity].
      destruct (negb _); reflexivity. }
  destruct (Client.address env); [| left; reflexivity].
  destruct (negb (Client.canUseWallet _ _)); [left; reflexivity |].
  destruct (negb (Client.canDecrypt _ _)); [left; reflexivity |].
  destruct (bool_decide _); [left; reflexivity |].
  destruct (Client.instance env) as [inst |]; [| left; reflexivity].
  destruct (Client.generateKeypair inst) as [keypair | ?]; [| left; reflexivity].
  destruct (Client.createEIP712 inst _ _ _ _) as [eip712 | ?]; [| left; reflexivity].
  destruct (Client.signerPromise env) as [[[signer |] | ?] |]; [| left; reflexivity ..].
  destruct (Client.signTypedData signer _ _ _) as [signature | ?]; [| left; reflexivity].
  right. exists r. split; [reflexivity |].
  destruct (Client.userDecrypt inst _); reflexivity.
Qed.

End ClientLemmas.
(** * The properties of the specification *)

(** The scenario of the specification: 1,000,000 points, a round started
    (999,900 left, a roll of 5 for the draw 4), a correct guess "big"
    (outcome true, reward 1,000, balance 1,000,900). *)
Example scenario :
  let entropy := λ _ : nat, 4 in
  let w3 := perform demo_this demo_verify demo_pending
              (CallSubmitGuess demo_player 55%N [1]) in
  dec64 entropy (getBalance demo_funded demo_player) = 1000000
  ∧ dec64 entropy (getBalance demo_pending demo_player) = 999900
  ∧ dec8 entropy (getLastRoll demo_pending demo_player) = 5
  ∧ isGameActive demo_pending demo_player = true
  ∧ decBool entropy (getLastOutcome w3 demo_player) = true
  ∧ dec64 entropy (getLastReward w3 demo_player) = 1000
  ∧ dec64 entropy (getBalance w3 demo_player) = 1000900
  ∧ isGameActive w3 demo_player = false.
Proof. vm_compute. repeat split; reflexivity. Qed.

(** C1, as the specification states it, fails where the credit leaves the
    64-bit domain: the player holds 2^64 - 1 points and starts a round (the
    cost is collected, the roll is 5), guesses "big", and wins; the reward is
    [WIN_REWARD], and the balance goes from 18446744073709551515 to 899,
    which is not [WIN_REWARD] more. *)
Lemma submitGuess_credit_wraps :
  let entropy := λ _ : nat, 4 in
  isGameActive demo_full_pending demo_player = true
  ∧ decBool entropy (roundEligibleOf demo_full_pending demo_player) = true
  ∧ dec8 entropy (getLastRoll demo_full_pending demo_player) = 5
  ∧ dec64 entropy (getBalance demo_full_pending demo_player) = 18446744073709551515
  ∧ ∃ w',
      submitGuess demo_this demo_verify demo_player 55%N [1] demo_full_pending
      = inr (tt, w')
      ∧ decBool entropy (getLastOutcome w' demo_player) = true
      ∧ dec64 entropy (getLastReward w' demo_player) = WIN_REWARD
      ∧ dec64 entropy (getBalance w' demo_player) = 899
      ∧ dec64 entropy (getBalance w' demo_player)
        ≠ dec64 entropy (getBalance demo_full_pending demo_player) + WIN_REWARD.
Proof.
  cbv zeta. repeat (split; [reflexivity |]).
  eexists. split; [apply submitGuess_run; reflexivity |].
  repeat (split; [reflexivity |]). vm_compute. discriminate.
Qed.

(** C1, amended (win determinism). A [submitGuess] in a pending round with an
    authentic guess holding the bit [g] succeeds and closes the round. It
    stores [isWin = eq(ge(lastRoll, 4), guess)] as [lastOutcome],
    [select(roundEligible, select(isWin, WIN_REWARD, 0), 0)] as [lastReward]
    and [add(balance, reward)] as the balance. With [big] the bit
    [lastRoll >= 4] and [eligible] the plaintext of [roundEligible]: if the
    round is eligible and [g] equals [big], the stored [lastOutcome] is true,
    the stored [lastReward] is [WIN_REWARD] and the balance is the old balance
    plus [WIN_REWARD] reduced modulo [2^64], which is the exact sum whenever
    that sum fits 64 bits; in every other case the stored [lastReward] is 0
    and the balance keeps its value. *)
Theorem submitGuess_win_determinism
    (this : address) (verify : Verifier) (entropy : nat → Z)
    (sender : address) (guess : N) (inputProof : list Z) (g : bool) (w : World) :
  isGameActive w sender = true →
  verify this sender guess inputProof = Some g →
  ∃ w',
    submitGuess this verify sender guess inputProof w = inr (tt, w')
    ∧ isGameActive w' sender = false
    ∧ let isWin := BEq (BGe8 (getLastRoll w sender) (U8Trivial 4)) (BImported guess g) in
      let reward :=
        U64Select (roundEligibleOf w sender)
          (U64Select isWin (U64Trivial WIN_REWARD) (U64Trivial 0)) (U64Trivial 0) in
      getLastOutcome w' sender = isWin
      ∧ getLastReward w' sender = reward
      ∧ getBalance w' sender = U64Add (getBalance w sender) reward
    ∧ let big := 4 <=? dec8 entropy (getLastRoll w sender) in
      let eligible := decBool entropy (roundEligibleOf w sender) in
      (eligible = true ∧ g = big →
         decBool entropy (getLastOutcome w' sender) = true
         ∧ dec64 entropy (getLastReward w' sender) = WIN_REWARD
         ∧ dec64 entropy (getBalance w' sender)
           = (dec64 entropy (getBalance w sender) + WIN_REWARD) mod two64
         ∧ (dec64 entropy (getBalance w sender) + WIN_REWARD < two64 →
            dec64 entropy (getBalance w' sender)
            = dec64 entropy (getBalance w sender) + WIN_REWARD))
      ∧ (¬ (eligible = true ∧ g = big) →
         dec64 entropy (getLastReward w' sender) = 0
         ∧ dec64 entropy (getBalance w' sender) = dec64 entropy (getBalance w sender)).
Proof.
  intros Ha Hp. eexists. split; [apply submitGuess_run; eassumption |].
  pose proof (dec64_range entropy (getBalance w sender)) as Hb.
  destruct (submitGuess_post_self this sender guess g w)
    as (_ & _ & Hout & Hreward & Hidle & Hbal).
  cbv zeta in Hout, Hreward, Hbal.
  split; [exact Hidle |]. cbv zeta.
  split; [exact Hout |]. split; [exact Hreward |]. split; [exact Hbal |].
  rewrite Hout, Hreward, Hbal.
  cbn [dec64 decBool dec8].
  change (4 mod two8) with 4. change (WIN_REWARD mod two64) with WIN_REWARD.
  change (0 mod two64) with 0.
  destruct (decBool entropy (roundEligibleOf w sender));
    destruct (4 <=? dec8 entropy (getLastRoll w sender)); destruct g; cbn [eqb];
    (split;
      [ intros [? ?];
        first [ discriminate
              | split; [reflexivity |]; split; [reflexivity |]; split; [reflexivity |];
                intros Hfit; apply Z.mod_small; unfold WIN_REWARD in *; lia ]
      | intros Hn; try (exfalso; apply Hn; split; reflexivity);
        rewrite Z.add_0_r, Z.mod_small by exact Hb; split; reflexivity ]).
Qed.

Lemma submitGuess_win_determinism_witness :
  ∃ w',
    submitGuess demo_this demo_verify demo_player 55%N [1] demo_pending = inr (tt, w')
    ∧ decBool (λ _, 4) (getLastOutcome w' demo_player) = true
    ∧ dec64 (λ _, 4) (getLastReward w' demo_player) = WIN_REWARD
    ∧ dec64 (λ _, 4) (getBalance w' demo_player) = 1000900.
Proof.
  destruct (submitGuess_win_determinism demo_this demo_verify (λ _, 4)
              demo_player 55%N [1] true demo_pending)
    as (w' & Hrun & _ & _ & _ & _ & Hwin & _); [reflexivity | reflexivity |].
  exists w'. split; [exact Hrun |].
  destruct Hwin as (Ho & Hr & _ & Hb); [split; reflexivity |].
  split; [exact Ho |]. split; [exact Hr |].
  rewrite Hb by (vm_compute; reflexivity). reflexivity.
Defined.

(** C2 (insufficient-funds safety). A [startGame] in the idle state by an
    account whose balance decrypts to less than [PLAY_COST] still succeeds
    and opens the round. It stores [hasEnough = ge(balance, PLAY_COST)], a
    written handle and not the sentinel, as [roundEligible], and
    [select(hasEnough, sub(balance, PLAY_COST), balance)] as the balance; the
    balance decrypts to the same value after the call, the stored
    [roundEligible] decrypts to false, and the [submitGuess] that resolves
    this round (directly, or after funding calls and calls of other accounts)
    succeeds for every authentic guess, stores a [lastReward] of 0 and leaves
    the value of the balance as it found it. *)
Theorem startGame_insufficient_funds
    (this : address) (verify : Verifier) (entropy : nat → Z)
    (sender : address) (w : World) :
  isGameActive w sender = false →
  dec64 entropy (getBalance w sender) < PLAY_COST →
  ∃ w1,
    startGame this sender w = inr (tt, w1)
    ∧ isGameActive w1 sender = true
    ∧ roundEligibleOf w1 sender = BGe64 (getBalance w sender) (U64Trivial PLAY_COST)
    ∧ roundEligibleOf w1 sender ≠ BNull
    ∧ getBalance w1 sender
      = U64Select (BGe64 (getBalance w sender) (U64Trivial PLAY_COST))
          (U64Sub (getBalance w sender) (U64Trivial PLAY_COST)) (getBalance w sender)
    ∧ dec64 entropy (getBalance w1 sender) = dec64 entropy (getBalance w sender)
    ∧ decBool entropy (roundEligibleOf w1 sender) = false
    ∧ ∀ (between : list Call) (guess : N) (inputProof : list Z) (g : bool),
        Forall (keeps_round sender) between →
        verify this sender guess inputProof = Some g →
        let w1' := perform_all this verify between w1 in
        ∃ w2,
          submitGuess this verify sender guess inputProof w1' = inr (tt, w2)
          ∧ dec64 entropy (getLastReward w2 sender) = 0
          ∧ dec64 entropy (getBalance w2 sender) = dec64 entropy (getBalance w1' sender).
Proof.
  intros Ha Hlow. eexists. split; [apply startGame_run; exact Ha |].
  destruct (startGame_post_self this sender w) as (_ & Hflag & _ & _ & Hact & Hbal).
  cbv zeta in Hflag, Hact, Hbal.
  assert (Hel : decBool entropy (roundEligibleOf (startGame_post this sender w) sender) = false).
  { rewrite Hflag. cbn [decBool dec64].
    change (PLAY_COST mod two64) with PLAY_COST. apply Z.leb_gt. exact Hlow. }
  split; [exact Hact |]. split; [exact Hflag |].
  split; [rewrite Hflag; discriminate |]. split; [exact Hbal |].
  split; [| split; [exact Hel |]].
  - rewrite Hbal. cbn [dec64 decBool].
    change (PLAY_COST mod two64) with PLAY_COST.
    destruct (Z.leb_spec PLAY_COST (dec64 entropy (getBalance w sender))); [lia | reflexivity].
  - intros between guess inputProof g Hbetween Hproof w1'.
    destruct (perform_all_keeps_round this verify sender between
                (startGame_post this sender w) Hbetween) as (Hel' & _ & Hact').
    fold w1' in Hel', Hact'. rewrite <- Hel' in Hel. rewrite Hact in Hact'.
    eexists. split; [apply submitGuess_run; eassumption |].
    pose proof (dec64_range entropy (getBalance w1' sender)) as Hb.
    unfold getLastReward, getBalance at 1, submitGuess_post.
    cbn [balances lastReward]. rewrite !lookup_insert_eq.
    cbn [default from_option id dec64]. rewrite Hel. change (0 mod two64) with 0.
    rewrite Z.add_0_r, Z.mod_small by exact Hb. split; reflexivity.
Qed.

Lemma startGame_insufficient_funds_witness :
  dec64 (λ _, 4) (getBalance demo_short demo_player) = 50
  ∧ ∃ w1,
      startGame demo_this demo_player demo_short = inr (tt, w1)
      ∧ roundEligibleOf w1 demo_player
        = BGe64 (getBalance demo_short demo_player) (U64Trivial PLAY_COST)
      ∧ decBool (λ _, 4) (roundEligibleOf w1 demo_player) = false
      ∧ dec64 (λ _, 4) (getBalance w1 demo_player) = 50
      ∧ ∃ w2,
          submitGuess demo_this demo_verify demo_player 55%N [1] w1 = inr (tt, w2)
          ∧ dec64 (λ _, 4) (getLastReward w2 demo_player) = 0
          ∧ dec64 (λ _, 4) (getBalance w2 demo_player) = 50.
Proof.
  split; [reflexivity |].
  destruct (startGame_insufficient_funds demo_this demo_verify (λ _, 4)
              demo_player demo_short)
    as (w1 & Hrun & _ & Hflag & _ & _ & Hbal & Hel & Hnext);
    [reflexivity | vm_compute; reflexivity |].
  exists w1. split; [exact Hrun |]. split; [exact Hflag |]. split; [exact Hel |].
  assert (H50 : dec64 (λ _, 4) (getBalance w1 demo_player) = 50).
  { rewrite Hbal. reflexivity. }
  split; [exact H50 |].
  destruct (Hnext [] 55%N [1] true (List.Forall_nil _) eq_refl)
    as (w2 & Hguess & Hreward & Hkept).
  exists w2. split; [exact Hguess |]. split; [exact Hreward |].
  rewrite Hkept. exact H50.
Defined.

(** C3, as the specification states it, fails where the sum leaves the 64-bit
    domain: the player holds 2^64 - 1 points, buys one more point for 10^12
    wei, the call succeeds, and the balance decrypts to 0, which is not the
    balance before plus one. *)
Lemma buyPoints_balance_wraps :
  let entropy := λ _ : nat, 0 in
  10 ^ 12 * POINTS_PER_ETH / ether = 1
  ∧ dec64 entropy (getBalance demo_full demo_player) = max_uint64
  ∧ ∃ w',
      buyPoints demo_this demo_player (10 ^ 12) demo_full = inr (tt, w')
      ∧ dec64 entropy (getBalance w' demo_player) = 0
      ∧ dec64 entropy (getBalance w' demo_player)
        ≠ dec64 entropy (getBalance demo_full demo_player) + 1.
Proof.
  cbv zeta. split; [reflexivity |]. split; [reflexivity |].
  eexists. split; [apply buyPoints_run; vm_compute; try split; congruence |].
  split; [reflexivity | vm_compute; discriminate].
Qed.

(** C3, amended. For an amount [value > 0] of wei, with
    [points = floor(value * POINTS_PER_ETH / 1 ether)]: [buyPoints] fails with
    "Amount too small" when [points] is 0 and with "Points overflow" when
    [points] exceeds [2^64 - 1], as long as the product
    [value * POINTS_PER_ETH] fits 256 bits (beyond that the checked
    multiplication fails first, with an arithmetic panic); otherwise it
    succeeds and the balance decrypts to the balance before plus [points],
    reduced modulo [2^64], which is the exact sum whenever that sum fits 64
    bits. Every failed call leaves the state as it was. *)
Theorem buyPoints_conservation
    (this : address) (entropy : nat → Z) (sender : address) (value : Z) (w : World) :
  0 < value →
  let points := value * POINTS_PER_ETH / ether in
  (value * POINTS_PER_ETH < two256 → points = 0 →
     call (buyPoints this sender value) w = (w, Some (Revert "Amount too small")))
  ∧ (value * POINTS_PER_ETH < two256 → max_uint64 < points →
     call (buyPoints this sender value) w = (w, Some (Revert "Points overflow")))
  ∧ (two256 ≤ value * POINTS_PER_ETH →
     call (buyPoints this sender value) w = (w, Some (Panic 17)))
  ∧ (0 < points ≤ max_uint64 →
     ∃ w',
       buyPoints this sender value w = inr (tt, w')
       ∧ dec64 entropy (getBalance w' sender)
         = (dec64 entropy (getBalance w sender) + points) mod two64
       ∧ (dec64 entropy (getBalance w sender) + points < two64 →
          dec64 entropy (getBalance w' sender)
          = dec64 entropy (getBalance w sender) + points)).
Proof.
  intros Hv points. split; [| split; [| split]].
  - intros Hm Hp. unfold call. rewrite buyPoints_too_small; [reflexivity | lia ..].
  - intros Hm Hp. unfold call. rewrite buyPoints_too_large; [reflexivity | lia ..].
  - intros Hm. unfold call. rewrite buyPoints_panic; [reflexivity | lia ..].
  - intros [Hp Hq].
    assert (Hm : value * POINTS_PER_ETH < two256).
    { destruct (Z.lt_ge_cases (value * POINTS_PER_ETH) two256) as [? | Hge]; [assumption |].
      exfalso.
      assert (two256 / ether ≤ points) by (apply Z.div_le_mono; [reflexivity | exact Hge]).
      assert (max_uint64 < two256 / ether) by reflexivity. lia. }
    eexists. split; [apply buyPoints_run; try split; assumption |].
    pose proof (dec64_range entropy (getBalance w sender)) as Hb.
    assert (Hbal : dec64 entropy (getBalance (buyPoints_post this sender value w) sender)
                   = (dec64 entropy (getBalance w sender) + points) mod two64).
    { unfold getBalance at 1, buyPoints_post. cbn [balances].
      rewrite lookup_insert_eq. cbn [default from_option id dec64]. fold points.
      rewrite 2!Z.add_mod_idemp_r by (unfold two64; lia). reflexivity. }
    split; [exact Hbal |].
    intros Hfit. rewrite Hbal. apply Z.mod_small. lia.
Qed.

Lemma buyPoints_conservation_witness :
  ∃ w',
    buyPoints demo_this demo_player ether genesis = inr (tt, w')
    ∧ dec64 (λ _, 0) (getBalance w' demo_player)
      = dec64 (λ _, 0) (getBalance genesis demo_player) + 1000000.
Proof.
  destruct (buyPoints_conservation demo_this (λ _, 0) demo_player ether genesis)
    as (_ & _ & _ & Hok); [reflexivity |].
  destruct Hok as (w' & Hrun & _ & Hexact); [split; vm_compute; congruence |].
  exists w'. split; [exact Hrun |].
  apply Hexact. reflexivity.
Defined.

(** C4, as the specification states it, fails for [roundEligible]: after a
    [startGame] from the initial state the stored [roundEligible] handle has
    the contract's grant and no grant for the player. *)
Lemma startGame_roundEligible_not_granted_to_player :
  ∃ w',
    startGame demo_this demo_player genesis = inr (tt, w')
    ∧ roundEligibleOf w' demo_player = BGe64 U64Null (U64Trivial PLAY_COST)
    ∧ granted (fhe w') (HBool (roundEligibleOf w' demo_player)) demo_this
    ∧ ¬ granted (fhe w') (HBool (roundEligibleOf w' demo_player)) demo_player.
Proof.
  eexists. split; [apply startGame_run; reflexivity |].
  split; [reflexivity |].
  unfold granted, roundEligibleOf, startGame_post. cbn [fhe acl roundEligible].
  rewrite lookup_insert_eq. cbn [default from_option id].
  rewrite !elem_of_cons. split; [tauto |].
  intros H. repeat (destruct H as [H | H]; [discriminate H |]).
  apply elem_of_nil in H. exact H.
Qed.

(** C4, amended. Every handle a successful transition stores into the acting
    account's record has a grant for the contract when the transition
    returns; the stored [balance], [lastRoll], [lastOutcome] and [lastReward]
    handles also have a grant for the account; for the stored [roundEligible]
    handle the transition grants the contract only (the account holds a grant
    on it after the call only if it is the contract itself or held one
    before). *)
Theorem transitions_grant_stored_handles
    (this : address) (verify : Verifier) (sender : address) (w w' : World) :
  (∀ value,
     buyPoints this sender value w = inr (tt, w') →
     granted (fhe w') (HU64 (getBalance w' sender)) this
     ∧ granted (fhe w') (HU64 (getBalance w' sender)) sender)
  ∧ (startGame this sender w = inr (tt, w') →
     granted (fhe w') (HU64 (getBalance w' sender)) this
     ∧ granted (fhe w') (HU64 (getBalance w' sender)) sender
     ∧ granted (fhe w') (HU8 (getLastRoll w' sender)) this
     ∧ granted (fhe w') (HU8 (getLastRoll w' sender)) sender
     ∧ granted (fhe w') (HBool (roundEligibleOf w' sender)) this
     ∧ (granted (fhe w') (HBool (roundEligibleOf w' sender)) sender →
        sender = this ∨ granted (fhe w) (HBool (roundEligibleOf w' sender)) sender))
  ∧ (∀ guess inputProof,
     submitGuess this verify sender guess inputProof w = inr (tt, w') →
     granted (fhe w') (HU64 (getBalance w' sender)) this
     ∧ granted (fhe w') (HU64 (getBalance w' sender)) sender
     ∧ granted (fhe w') (HBool (getLastOutcome w' sender)) this
     ∧ granted (fhe w') (HBool (getLastOutcome w' sender)) sender
     ∧ granted (fhe w') (HU64 (getLastReward w' sender)) this
     ∧ granted (fhe w') (HU64 (getLastReward w' sender)) sender).
Proof.
  split; [| split].
  - intros value Hrun. apply buyPoints_inv in Hrun as ->.
    unfold getBalance at 1 2, buyPoints_post. cbn [balances].
    rewrite lookup_insert_eq. cbn [default from_option id]. split; in_acl.
  - intros Hrun. apply startGame_inv in Hrun as [_ ->].
    unfold getBalance at 1 2, getLastRoll, roundEligibleOf, startGame_post.
    cbn [balances lastRoll roundEligible].
    rewrite !lookup_insert_eq. cbn [default from_option id].
    repeat (split; [in_acl |]).
    unfold granted. cbn [fhe acl]. rewrite !elem_of_cons.
    intros [H | [H | [H | [H | [H | H]]]]]; try discriminate H.
    + left. congruence.
    + right. exact H.
  - intros guess inputProof Hrun.
    apply submitGuess_inv in Hrun as (g & _ & _ & ->).
    unfold getBalance at 1 2, getLastOutcome, getLastReward, submitGuess_post.
    cbn [balances lastOutcome lastReward].
    rewrite !lookup_insert_eq. cbn [default from_option id].
    repeat split; in_acl.
Qed.

Lemma transitions_grant_stored_handles_witness :
  granted (fhe demo_pending) (HU8 (getLastRoll demo_pending demo_player)) demo_player
  ∧ granted (fhe demo_pending) (HBool (roundEligibleOf demo_pending demo_player)) demo_this.
Proof.
  destruct (transitions_grant_stored_handles demo_this demo_verify demo_player
              demo_funded demo_pending) as (_ & Hstart & _).
  destruct Hstart as (_ & _ & _ & Hroll & Hel & _); [vm_compute; reflexivity |].
  split; [exact Hroll | exact Hel].
Defined.

(** C5, as the specification states it, fails: a [submitGuess] in a pending
    round whose proof does not authenticate fails with [InvalidProof], and the
    round is still active afterwards. *)
Lemma submitGuess_invalid_proof_keeps_round_active :
  demo_verify demo_this demo_player 55%N [] = None
  ∧ isGameActive demo_pending demo_player = true
  ∧ call (submitGuess demo_this demo_verify demo_player 55%N []) demo_pending
    = (demo_pending, Some InvalidProof)
  ∧ isGameActive
      (fst (call (submitGuess demo_this demo_verify demo_player 55%N []) demo_pending))
      demo_player = true.
Proof.
  split; [reflexivity |]. split; [reflexivity |].
  rewrite submitGuess_call.
  change (isGameActive demo_pending demo_player) with true.
  cbn [demo_verify fst]. split; reflexivity.
Qed.

(** C5, amended. A [submitGuess] in a pending round whose proof fails
    authentication fails with [InvalidProof] and the whole transaction is
    undone: the state after the call is the state before it, so nothing
    derived from the unverified value is kept, and the round is still active
    (the attempt is not consumed). *)
Theorem submitGuess_invalid_proof_reverts
    (this : address) (verify : Verifier)
    (sender : address) (guess : N) (inputProof : list Z) (w : World) :
  isGameActive w sender = true →
  verify this sender guess inputProof = None →
  call (submitGuess this verify sender guess inputProof) w = (w, Some InvalidProof)
  ∧ isGameActive (fst (call (submitGuess this verify sender guess inputProof) w)) sender
    = true.
Proof.
  intros Ha Hp. rewrite submitGuess_call, Ha, Hp. split; [reflexivity | exact Ha].
Qed.

Lemma submitGuess_invalid_proof_reverts_witness :
  call (submitGuess demo_this demo_verify demo_player 55%N []) demo_pending
  = (demo_pending, Some InvalidProof)
  ∧ isGameActive
      (fst (call (submitGuess demo_this demo_verify demo_player 55%N []) demo_pending))
      demo_player = true.
Proof.
  apply (submitGuess_invalid_proof_reverts demo_this demo_verify demo_player 55%N []
           demo_pending); reflexivity.
Defined.

(** C6 (guards). A [startGame] while a round is active fails with "Game
    already active" and a [submitGuess] while none is active fails with "No
    active game"; either failed call leaves the whole state, the flag and
    every handle of every record, as it was. In particular a second
    [startGame] right after a successful one fails and the flag stays true. *)
Theorem guards_fail_without_effect
    (this : address) (verify : Verifier)
    (sender : address) (guess : N) (inputProof : list Z) (w : World) :
  (isGameActive w sender = true →
     call (startGame this sender) w = (w, Some (Revert "Game already active")))
  ∧ (isGameActive w sender = false →
     call (submitGuess this verify sender guess inputProof) w
     = (w, Some (Revert "No active game")))
  ∧ (isGameActive w sender = false →
     ∃ w1,
       call (startGame this sender) w = (w1, None)
       ∧ call (startGame this sender) w1 = (w1, Some (Revert "Game already active"))
       ∧ isGameActive w1 sender = true).
Proof.
  split; [| split].
  - intros Ha. rewrite startGame_call, Ha. reflexivity.
  - intros Ha. rewrite submitGuess_call, Ha. reflexivity.
  - intros Ha. exists (startGame_post this sender w).
    assert (Hact : isGameActive (startGame_post this sender w) sender = true).
    { unfold isGameActive, startGame_post. cbn [gameActive].
      rewrite lookup_insert_eq. reflexivity. }
    rewrite !startGame_call, Ha, Hact. repeat split; reflexivity.
Qed.

Lemma guards_fail_without_effect_witness :
  call (startGame demo_this demo_player) demo_pending
  = (demo_pending, Some (Revert "Game already active"))
  ∧ call (submitGuess demo_this demo_verify demo_player 55%N [1]) demo_funded
    = (demo_funded, Some (Revert "No active game")).
Proof.
  destruct (guards_fail_without_effect demo_this demo_verify demo_player 55%N [1]
              demo_pending) as (Hstart & _ & _).
  destruct (guards_fail_without_effect demo_this demo_verify demo_player 55%N [1]
              demo_funded) as (_ & Hguess & _).
  split; [apply Hstart; reflexivity | apply Hguess; reflexivity].
Defined.

(** C8 (roll domain). After a successful [startGame] the stored [lastRoll] is
    the draw [randEuint8(6)] plus one: with [v] the plaintext of the draw,
    [v] lies in [[0, 6)], the stored roll decrypts to [v + 1] with no 8-bit
    wrap-around, hence to a value in [[1, 6]]; and for every [v] in [[0, 6)]
    that the draw can take, the stored roll decrypts to [v + 1]. *)
Theorem startGame_roll_in_range
    (this : address) (entropy : nat → Z) (sender : address) (w : World) :
  isGameActive w sender = false →
  ∃ w',
    startGame this sender w = inr (tt, w')
    ∧ let draw := U8Rand (draws (fhe w)) 6 in
      let v := dec8 entropy draw in
      getLastRoll w' sender = U8Add draw (U8Trivial 1)
      ∧ 0 ≤ v < 6
      ∧ v + 1 < two8
      ∧ dec8 entropy (getLastRoll w' sender) = v + 1
      ∧ 1 ≤ dec8 entropy (getLastRoll w' sender) ≤ 6
      ∧ ∀ u, 0 ≤ u < 6 →
          dec8 (λ _, u) draw = u ∧ dec8 (λ _, u) (getLastRoll w' sender) = u + 1.
Proof.
  intros Ha. eexists. split; [apply startGame_run; exact Ha |].
  assert (Hroll : getLastRoll (startGame_post this sender w) sender
                  = U8Add (U8Rand (draws (fhe w)) 6) (U8Trivial 1)).
  { unfold getLastRoll, startGame_post. cbn [lastRoll].
    rewrite lookup_insert_eq. reflexivity. }
  cbv zeta. rewrite Hroll. cbn [dec8]. change (1 mod two8) with 1.
  pose proof (Z.mod_pos_bound (entropy (draws (fhe w))) 6 ltac:(lia)) as Hv.
  assert (Hsmall : (entropy (draws (fhe w)) mod 6) mod two8
                   = entropy (draws (fhe w)) mod 6).
  { apply Z.mod_small. unfold two8. lia. }
  rewrite Hsmall.
  assert (Hsum : (entropy (draws (fhe w)) mod 6 + 1) mod two8
                 = entropy (draws (fhe w)) mod 6 + 1).
  { apply Z.mod_small. unfold two8. lia. }
  rewrite Hsum.
  split; [reflexivity |]. split; [exact Hv |].
  split; [unfold two8; lia |]. split; [reflexivity |]. split; [lia |].
  intros u Hu.
  assert (Hu6 : u mod 6 = u) by (apply Z.mod_small; exact Hu).
  rewrite Hu6.
  assert (Hu8 : u mod two8 = u) by (apply Z.mod_small; unfold two8; lia).
  rewrite Hu8. split; [reflexivity |].
  apply Z.mod_small. unfold two8. lia.
Qed.

Lemma startGame_roll_in_range_witness :
  ∃ w',
    startGame demo_this demo_player demo_funded = inr (tt, w')
    ∧ 1 ≤ dec8 (λ _, 4) (getLastRoll w' demo_player) ≤ 6.
Proof.
  destruct (startGame_roll_in_range demo_this (λ _, 4) demo_player demo_funded)
    as (w' & Hrun & _ & _ & _ & _ & Hrange & _); [reflexivity |].
  exists w'. split; [exact Hrun | exact Hrange].
Defined.

(** C9 (frame of [buyPoints]). Whether a [buyPoints] call passes or fails,
    and whatever the state it is called in, the state the chain holds after it
    has the same [gameActive] flags and the same [lastRoll], [lastOutcome],
    [lastReward] and [roundEligible] handles, for the caller and for every
    other account: only [balances] (and the engine's grants, and the event
    log) may differ. *)
Theorem buyPoints_touches_only_balance
    (this : address) (sender : address) (value : Z) (w : World) :
  let w' := fst (call (buyPoints this sender value) w) in
  gameActive w' = gameActive w
  ∧ lastRoll w' = lastRoll w
  ∧ lastOutcome w' = lastOutcome w
  ∧ lastReward w' = lastReward w
  ∧ roundEligible w' = roundEligible w
  ∧ ∀ other, other ≠ sender → getBalance w' other = getBalance w other.
Proof.
  cbv zeta.
  destruct (buyPoints_call this sender value w) as [[err ->] | ->]; cbn [fst].
  - repeat split; reflexivity.
  - unfold buyPoints_post, getBalance.
    cbn [gameActive lastRoll lastOutcome lastReward roundEligible balances].
    repeat (split; [reflexivity |]).
    intros other Hne. rewrite lookup_insert_ne by congruence. reflexivity.
Qed.

(** C10 (frame of [startGame]). A successful [startGame] leaves the
    account's [lastOutcome] and [lastReward] handles as they were, so they
    decrypt to what they decrypted to before (the sentinel stays the
    sentinel), and every grant made before the call is still there: while the
    round is pending the two fields still read as the result of the round
    resolved last. *)
Theorem startGame_keeps_last_result
    (this : address) (entropy : nat → Z) (sender : address) (w : World) :
  isGameActive w sender = false →
  ∃ w',
    startGame this sender w = inr (tt, w')
    ∧ isGameActive w' sender = true
    ∧ getLastOutcome w' sender = getLastOutcome w sender
    ∧ getLastReward w' sender = getLastReward w sender
    ∧ decBool entropy (getLastOutcome w' sender) = decBool entropy (getLastOutcome w sender)
    ∧ dec64 entropy (getLastReward w' sender) = dec64 entropy (getLastReward w sender)
    ∧ ∀ h p, granted (fhe w) h p → granted (fhe w') h p.
Proof.
  intros Ha. eexists. split; [apply startGame_run; exact Ha |].
  unfold isGameActive at 1, getLastOutcome at 1 3, getLastReward at 1 3, startGame_post.
  cbn [gameActive lastOutcome lastReward]. rewrite lookup_insert_eq.
  repeat (split; [reflexivity |]).
  intros h p Hg. unfold granted in *. cbn [fhe acl].
  rewrite !elem_of_cons. tauto.
Qed.

Lemma startGame_keeps_last_result_witness :
  let resolved := perform demo_this demo_verify demo_pending
                    (CallSubmitGuess demo_player 55%N [1]) in
  ∃ w',
    startGame demo_this demo_player resolved = inr (tt, w')
    ∧ dec64 (λ _, 4) (getLastReward w' demo_player) = 1000.
Proof.
  cbv zeta.
  destruct (startGame_keeps_last_result demo_this (λ _, 4) demo_player
              (perform demo_this demo_verify demo_pending
                 (CallSubmitGuess demo_player 55%N [1])))
    as (w' & Hrun & _ & _ & _ & _ & Hreward & _); [reflexivity |].
  exists w'. split; [exact Hrun |]. rewrite Hreward. reflexivity.
Defined.


(** C7 (sentinel handling). In a refresh that reaches the decoding (the five
    reads resolved, the wallet able to decrypt): if the four handles are the
    sentinel, the refresh leaves [balance = "0"], [lastRoll] absent,
    [lastOutcome] absent, [lastReward = "0"] and sends no batch to the
    decryption service; every batch a refresh sends holds exactly the handles
    that are not the sentinel, each paired with the contract address; and once
    the service has answered, a field whose handle is the sentinel takes its
    default while every other field is read from the answer at its handle
    ([balance] and [lastReward] falling back to "0", [lastRoll] to absent, and
    [lastOutcome] keeping its former value, where the answer lacks the
    handle). *)
Theorem refresh_sentinel_handling
    {number : Type} (Number : string → number) (CONTRACT_ADDRESS : string)
    (env : Client.Env) (v : Client.View) (r : Client.Reads) :
  Client.publicClient env = Some (Client.Resolved r) →
  Client.canDecrypt CONTRACT_ADDRESS env = true →
  let result := Client.refreshPlayerData Number CONTRACT_ADDRESS env v in
  let four := [Client.encryptedBalance r; Client.encryptedRoll r;
               Client.encryptedOutcome r; Client.encryptedReward r] in
  let wanted := filter (λ handle, handle ≠ Client.ZERO_HASH) four in
  (Forall (λ handle, handle = Client.ZERO_HASH) four →
     snd result = []
     ∧ Client.balance (fst result) = Some "0"
     ∧ Client.lastRoll (fst result) = None
     ∧ Client.lastOutcome (fst result) = None
     ∧ Client.lastReward (fst result) = Some "0")
  ∧ (∀ batch, batch ∈ snd result →
       batch = map (λ handle, (handle, CONTRACT_ADDRESS)) wanted
       ∧ (Client.ZERO_HASH ∉ fst <$> batch)
       ∧ (∀ handle, handle ∈ four → handle ≠ Client.ZERO_HASH → handle ∈ (fst <$> batch)))
  ∧ (∀ inst account keypair eip712 signer signature decryptedValues,
       wanted ≠ [] →
       Client.instance env = Some inst →
       Client.address env = Some account →
       Client.generateKeypair inst = Client.Resolved keypair →
       Client.createEIP712 inst (Client.publicKey keypair) [CONTRACT_ADDRESS]
         (Client.startTimeStamp env) "7" = Client.Resolved eip712 →
       Client.signerPromise env = Some (Client.Resolved (Some signer)) →
       Client.signTypedData signer (Client.domain eip712)
         (Client.UserDecryptRequestVerification eip712) (Client.message eip712)
       = Client.Resolved signature →
       Client.userDecrypt inst
         {| Client.req_handleContractPairs :=
              map (λ handle, (handle, CONTRACT_ADDRESS)) wanted;
            Client.req_privateKey := Client.privateKey keypair;
            Client.req_publicKey := Client.publicKey keypair;
            Client.req_signature := Client.replace_first "0x" "" signature;
            Client.req_contractAddresses := [CONTRACT_ADDRESS];
            Client.req_userAddress := account;
            Client.req_startTimeStamp := Client.startTimeStamp env;
            Client.req_durationDays := "7" |}
       = Client.Resolved decryptedValues →
       snd result = [map (λ handle, (handle, CONTRACT_ADDRESS)) wanted]
       ∧ Client.balance (fst result)
         = (if decide (Client.encryptedBalance r = Client.ZERO_HASH) then Some "0"
            else Some (default "0" (decryptedValues !! Client.encryptedBalance r)))
       ∧ Client.lastRoll (fst result)
         = (if decide (Client.encryptedRoll r = Client.ZERO_HASH) then None
            else match decryptedValues !! Client.encryptedRoll r with
                 | Some s => if decide (s = "") then None else Some (Number s)
                 | None => None
                 end)
       ∧ Client.lastOutcome (fst result)
         = (if decide (Client.encryptedOutcome r = Client.ZERO_HASH) then None
            else match decryptedValues !! Client.encryptedOutcome r with
                 | Some s => Some (bool_decide (s = "1"))
                 | None => Client.lastOutcome v
                 end)
       ∧ Client.lastReward (fst result)
         = (if decide (Client.encryptedReward r = Client.ZERO_HASH) then Some "0"
            else Some (default "0" (decryptedValues !! Client.encryptedReward r)))).
Proof.
  intros Hreads Hcan result four wanted.
  destruct (canDecrypt_inv CONTRACT_ADDRESS env Hcan)
    as (Hwallet & [ud Hinst] & [sp Hsigner] & [addr Haddr]).
  split; [| split].
  - intros Hall.
    assert (Hwanted : wanted = []).
    { subst wanted four.
      repeat match goal with
             | H : Forall _ (_ :: _) |- _ => apply Forall_cons in H as [-> H]
             end.
      reflexivity. }
    subst result. unfold Client.refreshPlayerData.
    rewrite Hreads, Haddr, Hwallet, Hcan. cbn [negb].
    fold four. fold wanted. rewrite Hwanted. cbn.
    repeat split; reflexivity.
  - intros batch Hin.
    assert (Hbatch : batch = map (λ handle : string, (handle, CONTRACT_ADDRESS)) wanted).
    { destruct (refresh_batches Number CONTRACT_ADDRESS env v) as [Hnone | (r' & Hr' & Hone)].
      - subst result. rewrite Hnone in Hin. apply elem_of_nil in Hin. destruct Hin.
      - subst result. rewrite Hone in Hin. apply list_elem_of_singleton in Hin.
        rewrite Hreads in Hr'. injection Hr' as <-. exact Hin. }
    split; [exact Hbatch |]. rewrite Hbatch, pairs_handles. subst wanted. split.
    + intros Hz. apply list_elem_of_filter in Hz as [Hz _]. apply Hz. reflexivity.
    + intros handle Hh Hne. apply list_elem_of_filter. split; assumption.
  - intros inst account keypair eip712 signer signature decryptedValues
      Hne Hud Hacc Hkey Heip Hsig Hsign Hanswer.
    subst result. unfold Client.refreshPlayerData, Client.decryptHandles.
    rewrite Hreads, Hacc, Hwallet, Hcan, Hud, Hkey. cbv zeta.
    rewrite Heip, Hsig, Hsign. cbn [negb].
    fold four. fold wanted.
    destruct (bool_decide (length wanted = 0%nat)) eqn:Hlen.
    { apply bool_decide_eq_true in Hlen. destruct wanted; [congruence | discriminate]. }
    rewrite Hanswer. cbn [fst snd]. split; [reflexivity |].
    unfold Client.decode, Client.finally.
    destruct (decide (Client.encryptedBalance r = Client.ZERO_HASH)) as [Eb | Eb];
      [rewrite (bool_decide_eq_false_2 _ (λ H, H Eb)) | rewrite (bool_decide_eq_true_2 _ Eb)];
    (destruct (decide (Client.encryptedRoll r = Client.ZERO_HASH)) as [Er | Er];
      [rewrite (bool_decide_eq_false_2 _ (λ H, H Er)) | rewrite (bool_decide_eq_true_2 _ Er)]);
    (destruct (decide (Client.encryptedOutcome r = Client.ZERO_HASH)) as [Eo | Eo];
      [rewrite (bool_decide_eq_false_2 _ (λ H, H Eo)) | rewrite (bool_decide_eq_true_2 _ Eo)]);
    (destruct (decide (Client.encryptedReward r = Client.ZERO_HASH)) as [Ew | Ew];
      [rewrite (bool_decide_eq_false_2 _ (λ H, H Ew)) | rewrite (bool_decide_eq_true_2 _ Ew)]);
    cbv zeta;
    destruct (decryptedValues !! Client.encryptedOutcome r) as [rawOutcome |];
    destruct (decryptedValues !! Client.encryptedRoll r) as [rawRoll |];
    try (destruct (decide (rawRoll = "")) as [Es | Es];
         [rewrite (bool_decide_eq_true_2 _ Es) | rewrite (bool_decide_eq_false_2 _ Es)]);
    repeat split; reflexivity.
Qed.

Lemma refresh_sentinel_handling_witness :
  let answer : gmap string string := {["0x01" := "999900"; "0x02" := "5"]} in
  let idle :=
    Client.refreshPlayerData (λ s : string, Z.of_nat (String.length s)) demo_contract
      (demo_env demo_idle_reads ∅) demo_view in
  let played :=
    Client.refreshPlayerData (λ s : string, Z.of_nat (String.length s)) demo_contract
      (demo_env demo_played_reads answer) demo_view in
  (snd idle = []
   ∧ Client.balance (fst idle) = Some "0"
   ∧ Client.lastRoll (fst idle) = None
   ∧ Client.lastOutcome (fst idle) = None
   ∧ Client.lastReward (fst idle) = Some "0")
  ∧ (snd played = [[("0x01", demo_contract); ("0x02", demo_contract);
                    ("0x04", demo_contract)]]
     ∧ Client.balance (fst played) = Some "999900"
     ∧ Client.lastRoll (fst played) = Some 1
     ∧ Client.lastOutcome (fst played) = None
     ∧ Client.lastReward (fst played) = Some "0").
Proof.
  cbv zeta. split.
  - destruct (refresh_sentinel_handling (λ s : string, Z.of_nat (String.length s))
                demo_contract (demo_env demo_idle_reads ∅) demo_view demo_idle_reads)
      as (Hidle & _ & _); [reflexivity | reflexivity |].
    apply Hidle. repeat constructor.
  - destruct (refresh_sentinel_handling (λ s : string, Z.of_nat (String.length s))
                demo_contract
                (demo_env demo_played_reads {["0x01" := "999900"; "0x02" := "5"]})
                demo_view demo_played_reads)
      as (_ & _ & Hmapped); [reflexivity | reflexivity |].
    destruct (Hmapped _ _ _ _ _ _ _ ltac:(vm_compute; discriminate)
                eq_refl eq_refl eq_refl eq_refl eq_refl eq_refl eq_refl)
      as (Hsent & Hb & Hr & Ho & Hw).
    split; [exact Hsent |]. split; [rewrite Hb; reflexivity |].
    split; [rewrite Hr; reflexivity |]. split; [rewrite Ho; reflexivity |].
    rewrite Hw. reflexivity.
Defined.

(** * Further properties of the ledger *)

(** ** One call, case by case *)

Lemma perform_cases (this : address) (verify : Verifier) (w : World) (c : Call) :
  perform this verify w c = w
  ∨ (∃ value, c = CallBuyPoints (sender_of c) value
       ∧ perform this verify w c = buyPoints_post this (sender_of c) value w)
  ∨ (c = CallStartGame (sender_of c)
       ∧ isGameActive w (sender_of c) = false
       ∧ perform this verify w c = startGame_post this (sender_of c) w)
  ∨ (∃ guess inputProof g,
       c = CallSubmitGuess (sender_of c) guess inputProof
       ∧ isGameActive w (sender_of c) = true
       ∧ verify this (sender_of c) guess inputProof = Some g
       ∧ perform this verify w c = submitGuess_post this (sender_of c) guess g w).
Proof.
  unfold perform. destruct c as [s v | s | s guess pf]; cbn [body sender_of].
  - destruct (buyPoints_call this s v w) as [[err ->] | ->]; cbn [fst].
    + left. reflexivity.
    + right. left. exists v. split; [reflexivity | reflexivity].
  - rewrite startGame_call. destruct (isGameActive w s) eqn:Ha; cbn [fst].
    + left. reflexivity.
    + right. right. left. split; [reflexivity |]. split; reflexivity.
  - rewrite submitGuess_call. destruct (isGameActive w s) eqn:Ha; cbn [fst].
    + destruct (verify this s guess pf) as [g |] eqn:Hp; cbn [fst].
      * right. right. right. exists guess, pf, g.
        split; [reflexivity |]. split; [reflexivity |]. split; [exact Hp | reflexivity].
      * left. reflexivity.
    + left. reflexivity.
Qed.

(** Induction over the states a sequence of calls reaches. *)
Lemma perform_all_snoc (this : address) (verify : Verifier) (cs : list Call) (c : Call) (w : World) :
  perform_all this verify (cs ++ [c]) w
  = perform this verify (perform_all this verify cs w) c.
Proof. unfold perform_all. rewrite foldl_app. reflexivity. Qed.

Lemma perform_all_ind (this : address) (verify : Verifier) (P : World → Prop) (w0 : World) :
  P w0 →
  (∀ w c, P w → P (perform this verify w c)) →
  ∀ cs, P (perform_all this verify cs w0).
Proof.
  intros H0 Hstep cs. induction cs as [| c cs IH] using rev_ind.
  - exact H0.
  - rewrite perform_all_snoc. apply Hstep. exact IH.
Qed.

(** ** Accounts are independent *)

Lemma perform_other_account
    (this : address) (verify : Verifier) (a : address) (c : Call) (w : World) :
  sender_of c ≠ a →
  getBalance (perform this verify w c) a = getBalance w a
  ∧ getLastRoll (perform this verify w c) a = getLastRoll w a
  ∧ getLastOutcome (perform this verify w c) a = getLastOutcome w a
  ∧ getLastReward (perform this verify w c) a = getLastReward w a
  ∧ roundEligibleOf (perform this verify w c) a = roundEligibleOf w a
  ∧ isGameActive (perform this verify w c) a = isGameActive w a.
Proof.
  intros Hne.
  destruct (perform_cases this verify w c)
    as [-> | [(v & _ & ->) | [(_ & _ & ->) | (guess & pf & g & _ & _ & _ & ->)]]].
  - repeat split; reflexivity.
  - fields. other_key Hne. repeat split; reflexivity.
  - fields. other_key Hne. repeat split; reflexivity.
  - fields. other_key Hne. repeat split; reflexivity.
Qed.

(** X1 (account isolation). A call sent by one account, whether it passes or
    fails, leaves every other account's record as it was: the same [balance],
    [lastRoll], [lastOutcome], [lastReward] and [roundEligible] handles and the
    same [gameActive] flag. *)
Theorem call_leaves_other_accounts
    (this : address) (verify : Verifier) (a : address) (c : Call) (w : World) :
  sender_of c ≠ a →
  let w' := perform this verify w c in
  getBalance w' a = getBalance w a
  ∧ getLastRoll w' a = getLastRoll w a
  ∧ getLastOutcome w' a = getLastOutcome w a
  ∧ getLastReward w' a = getLastReward w a
  ∧ roundEligibleOf w' a = roundEligibleOf w a
  ∧ isGameActive w' a = isGameActive w a.
Proof.
  intros Hne. cbv zeta.
  destruct (perform_cases this verify w c)
    as [Hsame | [(v & _ & Hpost) | [(_ & _ & Hpost) | (guess & pf & g & _ & _ & _ & Hpost)]]].
  - rewrite Hsame. repeat split; reflexivity.
  - rewrite Hpost. unfold getBalance, buyPoints_post. cbn [balances].
    rewrite lookup_insert_ne by exact Hne. repeat split; reflexivity.
  - rewrite Hpost.
    unfold getBalance, getLastRoll, roundEligibleOf, isGameActive, startGame_post.
    cbn [balances lastRoll roundEligible gameActive].
    rewrite !lookup_insert_ne by exact Hne. repeat split; reflexivity.
  - rewrite Hpost.
    unfold getBalance, getLastOutcome, getLastReward, isGameActive, submitGuess_post.
    cbn [balances lastOutcome lastReward gameActive].
    rewrite !lookup_insert_ne by exact Hne. repeat split; reflexivity.
Qed.

Lemma call_leaves_other_accounts_witness :
  getBalance (perform demo_this demo_verify demo_pending (CallStartGame 3%N)) demo_player
  = getBalance demo_pending demo_player
  ∧ isGameActive (perform demo_this demo_verify demo_pending (CallStartGame 3%N)) demo_player
    = isGameActive demo_pending demo_player.
Proof.
  destruct (call_leaves_other_accounts demo_this demo_verify demo_player
              (CallStartGame 3%N) demo_pending) as (Hb & _ & _ & _ & _ & Ha).
  - cbn [sender_of]. discriminate.
  - split; [exact Hb | exact Ha].
Defined.

(** X2 (an account that never called). After any sequence of calls from the
    initial state none of which the account sent, the account's four readable
    handles and its [roundEligible] handle are the sentinel and no round is
    active for it. *)
Theorem silent_account_reads_sentinel
    (this : address) (verify : Verifier) (a : address) (cs : list Call) :
  Forall (λ c, sender_of c ≠ a) cs →
  let w := perform_all this verify cs genesis in
  getBalance w a = U64Null
  ∧ getLastRoll w a = U8Null
  ∧ getLastOutcome w a = BNull
  ∧ getLastReward w a = U64Null
  ∧ roundEligibleOf w a = BNull
  ∧ isGameActive w a = false.
Proof.
  cbv zeta. induction cs as [| c cs IH] using rev_ind; intros Hcs.
  - repeat split; reflexivity.
  - apply Forall_app in Hcs as [Hcs Hc]. apply Forall_inv in Hc.
    rewrite perform_all_snoc.
    destruct (perform_other_account this verify a c
                (perform_all this verify cs genesis) Hc)
      as (-> & -> & -> & -> & -> & ->).
    apply IH. exact Hcs.
Qed.

Lemma silent_account_reads_sentinel_witness :
  getBalance (perform_all demo_this demo_verify
                [CallBuyPoints demo_player ether; CallStartGame demo_player] genesis) 3%N
  = U64Null.
Proof.
  apply (silent_account_reads_sentinel demo_this demo_verify 3%N
           [CallBuyPoints demo_player ether; CallStartGame demo_player]).
  repeat constructor; cbn [sender_of]; discriminate.
Defined.

(** ** Grants are never taken back *)

Lemma perform_keeps_grants (this : address) (verify : Verifier) (w : World) (c : Call)
    (h : handle) (p : address) :
  granted (fhe w) h p → granted (fhe (perform this verify w c)) h p.
Proof.
  intros Hg.
  destruct (perform_cases this verify w c)
    as [-> | [(v & _ & ->) | [(_ & _ & ->) | (guess & pf & g & _ & _ & _ & ->)]]];
    [exact Hg | unfold granted in *; fields; rewrite !elem_of_cons; tauto ..].
Qed.

(** X3 (grants are append-only). Whatever calls follow, passing or failing,
    a grant that a handle has for a principal is still there afterwards: no
    transition of the ledger removes a grant. *)
Theorem grants_survive_calls
    (this : address) (verify : Verifier) (w : World) (cs : list Call)
    (h : handle) (p : address) :
  granted (fhe w) h p → granted (fhe (perform_all this verify cs w)) h p.
Proof.
  intros Hg. apply (perform_all_ind this verify (λ w', granted (fhe w') h p)).
  - exact Hg.
  - intros w' c Hw'. apply perform_keeps_grants. exact Hw'.
Qed.

Lemma grants_survive_calls_witness :
  granted
    (fhe (perform_all demo_this demo_verify
            [CallSubmitGuess demo_player 55%N [1]; CallStartGame demo_player] demo_pending))
    (HU8 (getLastRoll demo_pending demo_player)) demo_player.
Proof.
  apply (grants_survive_calls demo_this demo_verify demo_pending).
  unfold granted. apply list_elem_of_In. vm_compute.
  repeat (try (left; reflexivity); right).
Defined.

(** ** Buying points: thresholds and rounding *)

Lemma points_per_wei (value : Z) :
  value * POINTS_PER_ETH / ether = value / 10 ^ 12.
Proof.
  change ether with (10 ^ 12 * POINTS_PER_ETH).
  apply Z.div_mul_cancel_r; discriminate.
Qed.

(** X4 (what a purchase needs and gives). [buyPoints] passes exactly for
    amounts from [10^12] wei (one point) up to, and excluding,
    [2^64 * 10^12] wei. A passing call credits [points = value div 10^12]:
    the wei beyond a whole number of points buy nothing, so
    [points * 10^12 <= value < (points + 1) * 10^12], and the call logs
    [PointsPurchased(sender, value, points)] as the last event. *)
Theorem buyPoints_threshold
    (this : address) (sender : address) (value : Z) (w : World) :
  ((∃ w', buyPoints this sender value w = inr (tt, w'))
     ↔ 10 ^ 12 ≤ value < two64 * 10 ^ 12)
  ∧ ∀ w', buyPoints this sender value w = inr (tt, w') →
      let points := value * POINTS_PER_ETH / ether in
      points = value / 10 ^ 12
      ∧ points * 10 ^ 12 ≤ value < (points + 1) * 10 ^ 12
      ∧ getBalance w' sender = U64Add (getBalance w sender) (U64Trivial points)
      ∧ events w' = events w ++ [PointsPurchased sender value points].
Proof.
  assert (Hbounds : 10 ^ 12 ≤ value < two64 * 10 ^ 12 →
                    0 < value ∧ value * POINTS_PER_ETH < two256
                    ∧ 0 < value * POINTS_PER_ETH / ether ≤ max_uint64).
  { intros Hv. rewrite points_per_wei.
    unfold max_uint64, two64, two256, POINTS_PER_ETH in *.
    change (10 ^ 12) with 1000000000000 in *.
    change (2 ^ 64) with 18446744073709551616 in *.
    change (2 ^ 256) with
      115792089237316195423570985008687907853269984665640564039457584007913129639936.
    Z.to_euclidean_division_equations. lia. }
  assert (Hsuccess : ∀ w', buyPoints this sender value w = inr (tt, w') →
                           10 ^ 12 ≤ value < two64 * 10 ^ 12).
  { intros w' Hrun.
    destruct (Z.le_gt_cases value 0) as [Hv | Hv].
    { rewrite buyPoints_no_value in Hrun by exact Hv. discriminate. }
    destruct (Z.le_gt_cases two256 (value * POINTS_PER_ETH)) as [Hm | Hm].
    { rewrite buyPoints_panic in Hrun by assumption. discriminate. }
    destruct (Z.le_gt_cases (value * POINTS_PER_ETH / ether) 0) as [Hp | Hp].
    { rewrite buyPoints_too_small in Hrun by assumption. discriminate. }
    destruct (Z.le_gt_cases (value * POINTS_PER_ETH / ether) max_uint64) as [Hq | Hq].
    2:{ rewrite buyPoints_too_large in Hrun by assumption. discriminate. }
    rewrite points_per_wei in Hp, Hq.
    unfold max_uint64, two64 in *.
    change (10 ^ 12) with 1000000000000 in *.
    change (2 ^ 64) with 18446744073709551616 in *.
    Z.to_euclidean_division_equations. lia. }
  split; [split |].
  - intros [w' Hrun]. exact (Hsuccess w' Hrun).
  - intros Hv. destruct (Hbounds Hv) as (H1 & H2 & H3).
    eexists. apply buyPoints_run; assumption.
  - intros w' Hrun points.
    pose proof (Hsuccess w' Hrun) as Hv.
    destruct (Hbounds Hv) as (_ & _ & Hp).
    apply buyPoints_inv in Hrun as ->.
    split; [apply points_per_wei |]. split.
    + subst points. rewrite points_per_wei.
      change (10 ^ 12) with 1000000000000 in *.
      Z.to_euclidean_division_equations. lia.
    + fields. same_key. fold points.
      rewrite (Z.mod_small points two64) by (unfold max_uint64 in Hp; lia).
      split; reflexivity.
Qed.

(** ** Starting a round with enough points *)

(** X5 (sufficient funds). A [startGame] in the idle state by an account
    whose balance decrypts to at least [PLAY_COST] succeeds, the balance
    decrypts afterwards to exactly [PLAY_COST] less (no wrap-around), and the
    stored [roundEligible] decrypts to true. *)
Theorem startGame_sufficient_funds
    (this : address) (entropy : nat → Z) (sender : address) (w : World) :
  isGameActive w sender = false →
  PLAY_COST ≤ dec64 entropy (getBalance w sender) →
  ∃ w1,
    startGame this sender w = inr (tt, w1)
    ∧ dec64 entropy (getBalance w1 sender)
      = dec64 entropy (getBalance w sender) - PLAY_COST
    ∧ decBool entropy (roundEligibleOf w1 sender) = true.
Proof.
  intros Ha Hb. eexists. split; [apply startGame_run; exact Ha |].
  pose proof (dec64_range entropy (getBalance w sender)) as Hr.
  unfold getBalance at 1, roundEligibleOf, startGame_post.
  cbn [balances roundEligible]. rewrite !lookup_insert_eq.
  cbn [default from_option id dec64 decBool].
  change (PLAY_COST mod two64) with PLAY_COST.
  destruct (Z.leb_spec PLAY_COST (dec64 entropy (getBalance w sender))); [| lia].
  split; [| reflexivity].
  apply Z.mod_small. unfold PLAY_COST in *. lia.
Qed.

Lemma startGame_sufficient_funds_witness :
  ∃ w1,
    startGame demo_this demo_player demo_funded = inr (tt, w1)
    ∧ dec64 (λ _, 0) (getBalance w1 demo_player) = 999900.
Proof.
  destruct (startGame_sufficient_funds demo_this (λ _, 0) demo_player demo_funded)
    as (w1 & Hrun & Hbal & _); [reflexivity | vm_compute; discriminate |].
  exists w1. split; [exact Hrun |]. rewrite Hbal. reflexivity.
Defined.

Lemma buyPoints_threshold_witness :
  ∃ w', buyPoints demo_this demo_player (10 ^ 12) genesis = inr (tt, w')
        ∧ getBalance w' demo_player = U64Add U64Null (U64Trivial 1).
Proof.
  destruct (buyPoints_threshold demo_this demo_player (10 ^ 12) genesis)
    as [[_ Hpass] Hgives].
  destruct Hpass as [w' Hrun]; [vm_compute; split; congruence |].
  exists w'. split; [exact Hrun |].
  destruct (Hgives w' Hrun) as (_ & _ & Hbal & _). exact Hbal.
Defined.

(** ** A whole round *)

(** X6 (a round, start to resolution). From the idle state, [startGame]
    followed by a [submitGuess] with an authentic guess holding the bit [g]
    both succeed and leave the account idle again. With [b] the balance
    before the round and [big] the bit [roll >= 4] of the roll drawn for it:
    the stored outcome is true exactly when [g] equals [big]; with
    [b < PLAY_COST] the reward is 0 and the balance stays [b]; with
    [b >= PLAY_COST] and a wrong guess the reward is 0 and the balance is
    [b - PLAY_COST]; with [b >= PLAY_COST] and a right guess the reward is
    [WIN_REWARD] and the balance is [b - PLAY_COST + WIN_REWARD] modulo
    [2^64]. *)
Theorem round_settles
    (this : address) (verify : Verifier) (entropy : nat → Z)
    (sender : address) (guess : N) (inputProof : list Z) (g : bool) (w : World) :
  isGameActive w sender = false →
  verify this sender guess inputProof = Some g →
  ∃ w1 w2,
    startGame this sender w = inr (tt, w1)
    ∧ submitGuess this verify sender guess inputProof w1 = inr (tt, w2)
    ∧ isGameActive w2 sender = false
    ∧ let b := dec64 entropy (getBalance w sender) in
      let big := 4 <=? dec8 entropy (getLastRoll w1 sender) in
      let reward := dec64 entropy (getLastReward w2 sender) in
      let b2 := dec64 entropy (getBalance w2 sender) in
      getLastRoll w2 sender = getLastRoll w1 sender
      ∧ decBool entropy (getLastOutcome w2 sender) = eqb big g
      ∧ (b < PLAY_COST → reward = 0 ∧ b2 = b)
      ∧ (PLAY_COST ≤ b → g ≠ big → reward = 0 ∧ b2 = b - PLAY_COST)
      ∧ (PLAY_COST ≤ b → g = big →
         reward = WIN_REWARD ∧ b2 = (b - PLAY_COST + WIN_REWARD) mod two64).
Proof.
  intros Ha Hp.
  assert (Hact : isGameActive (startGame_post this sender w) sender = true).
  { fields. same_key. reflexivity. }
  exists (startGame_post this sender w),
         (submitGuess_post this sender guess g (startGame_post this sender w)).
  split; [apply startGame_run; exact Ha |].
  split; [apply submitGuess_run; assumption |].
  pose proof (dec64_range entropy (getBalance w sender)) as Hr.
  clear Hact Ha Hp.
  fields. fields. same_key.
  split; [reflexivity |]. cbv zeta. split; [reflexivity |].
  cbn [dec64 decBool dec8].
  change (PLAY_COST mod two64) with PLAY_COST.
  change (WIN_REWARD mod two64) with WIN_REWARD.
  change (0 mod two64) with 0. change (4 mod two8) with 4.
  set (b := dec64 entropy (default U64Null (balances w !! sender))) in *.
  set (big := 4 <=? _).
  assert (Hsub : PLAY_COST ≤ b → (b - PLAY_COST) mod two64 = b - PLAY_COST).
  { intros Hb. apply Z.mod_small. unfold PLAY_COST in *. lia. }
  split; [reflexivity |].
  destruct (Z.leb_spec PLAY_COST b) as [Hb | Hb].
  - rewrite (Hsub Hb).
    split; [intros; lia |].
    destruct big, g; cbn [eqb]; (split; [intros _ Hg | intros _ Hg]);
      try congruence; try (exfalso; apply Hg; reflexivity);
      (split; [reflexivity |]);
      rewrite ?Z.add_0_r; try reflexivity;
      apply Z.mod_small; unfold PLAY_COST in *; lia.
  - split; [| split; intros; lia].
    intros _. destruct (eqb big g); cbn;
      (split; [reflexivity |]); rewrite Z.add_0_r; apply Z.mod_small; exact Hr.
Qed.

Lemma round_settles_witness :
  ∃ w1 w2,
    startGame demo_this demo_player demo_funded = inr (tt, w1)
    ∧ submitGuess demo_this demo_verify demo_player 55%N [1] w1 = inr (tt, w2)
    ∧ isGameActive w2 demo_player = false.
Proof.
  destruct (round_settles demo_this demo_verify (λ _, 4) demo_player 55%N [1] true
              demo_funded) as (w1 & w2 & H1 & H2 & H3 & _);
    [reflexivity | reflexivity |].
  exists w1, w2. repeat split; assumption.
Defined.

(** ** What holds in every state the ledger can reach *)

Lemma dice_roll_range (entropy : nat → Z) (h : euint8) :
  is_dice_roll h → 1 ≤ dec8 entropy h ≤ 6.
Proof.
  intros [n ->]. cbn [dec8]. change (1 mod two8) with 1.
  pose proof (Z.mod_pos_bound (entropy n) 6 ltac:(lia)) as Hv.
  rewrite (Z.mod_small (entropy n mod 6) two8) by (unfold two8; lia).
  rewrite Z.mod_small by (unfold two8; lia). lia.
Qed.

Lemma record_shape_genesis (a : address) : record_shape genesis a.
Proof. split; left; repeat split; reflexivity. Qed.

Lemma record_shape_perform
    (this : address) (verify : Verifier) (a : address) (w : World) (c : Call) :
  record_shape w a → record_shape (perform this verify w c) a.
Proof.
  intros Hw. destruct (decide (sender_of c = a)) as [Hs | Hs].
  2:{ unfold record_shape.
      destruct (perform_other_account this verify a c w Hs)
        as (_ & -> & -> & -> & -> & ->). exact Hw. }
  destruct (perform_cases this verify w c)
    as [-> | [(v & _ & ->) | [(_ & Ha & ->) | (guess & pf & g & _ & Ha & _ & ->)]]];
    [exact Hw | rewrite Hs in * ..]; unfold record_shape.
  - destruct (buyPoints_post_self this a v w) as (-> & -> & -> & -> & -> & _).
    exact Hw.
  - destruct (startGame_post_self this a w) as (-> & -> & -> & -> & -> & _).
    destruct Hw as [_ Hres]. split.
    + right. split; [eexists; reflexivity | discriminate].
    + destruct Hres as [Hnone | (el & Hreward & Hout & _)]; [left; exact Hnone |].
      right. exists el. split; [exact Hreward |]. split; [exact Hout | discriminate].
  - destruct (submitGuess_post_self this a guess g w) as (-> & -> & -> & -> & -> & _).
    destruct Hw as [Hroll _]. split.
    + destruct Hroll as [(_ & _ & _ & Hidle) | Hdice]; [congruence |].
      right. exact Hdice.
    + right. eexists. split; [reflexivity |]. split; [discriminate |]. intros _.
      split; [reflexivity |]. eexists _, _. reflexivity.
Qed.

Lemma record_shape_reachable
    (this : address) (verify : Verifier) (a : address) (cs : list Call) :
  record_shape (perform_all this verify cs genesis) a.
Proof.
  apply (perform_all_ind this verify (λ w, record_shape w a)).
  - apply record_shape_genesis.
  - intros w c. apply record_shape_perform.
Qed.

Lemma balance_written_with_roll
    (this : address) (verify : Verifier) (a : address) (cs : list Call) :
  getLastRoll (perform_all this verify cs genesis) a ≠ U8Null →
  getBalance (perform_all this verify cs genesis) a ≠ U64Null.
Proof.
  apply (perform_all_ind this verify
           (λ w, getLastRoll w a ≠ U8Null → getBalance w a ≠ U64Null)).
  - intros H. exfalso. apply H. reflexivity.
  - intros w c IH. destruct (decide (sender_of c = a)) as [Hs | Hs].
    2:{ destruct (perform_other_account this verify a c w Hs) as (-> & -> & _).
        exact IH. }
    destruct (perform_cases this verify w c)
      as [-> | [(v & _ & ->) | [(_ & _ & ->) | (guess & pf & g & _ & _ & _ & ->)]]];
      [exact IH | rewrite Hs in * ..].
    + destruct (buyPoints_post_self this a v w) as (_ & _ & _ & _ & _ & ->). discriminate.
    + destruct (startGame_post_self this a w) as (_ & _ & _ & _ & _ & ->). discriminate.
    + destruct (submitGuess_post_self this a guess g w) as (_ & _ & _ & _ & _ & ->).
      discriminate.
Qed.

(** X7 (the roll stays in its domain). In every state reached from the
    initial one by any sequence of calls, and for every account: either the
    account never started a round (its [lastRoll] is the sentinel and no round
    is active), or its [lastRoll] decrypts to a value from 1 to 6, whatever
    the engine drew. *)
Theorem roll_always_in_range
    (this : address) (verify : Verifier) (entropy : nat → Z)
    (a : address) (cs : list Call) :
  let w := perform_all this verify cs genesis in
  (getLastRoll w a = U8Null ∧ isGameActive w a = false)
  ∨ 1 ≤ dec8 entropy (getLastRoll w a) ≤ 6.
Proof.
  cbv zeta.
  destruct (record_shape_reachable this verify a cs) as [[Hnone | [Hdice _]] _].
  - left. tauto.
  - right. apply dice_roll_range. exact Hdice.
Qed.

(** X8 (the reward is nothing or the prize). In every reachable state the
    stored [lastReward] of an account decrypts to 0 or to [WIN_REWARD], and
    when it decrypts to [WIN_REWARD] the stored [lastOutcome] decrypts to
    true: no reward is ever recorded beside a lost round. *)
Theorem reward_is_zero_or_prize
    (this : address) (verify : Verifier) (entropy : nat → Z)
    (a : address) (cs : list Call) :
  let w := perform_all this verify cs genesis in
  dec64 entropy (getLastReward w a) = 0
  ∨ (dec64 entropy (getLastReward w a) = WIN_REWARD
     ∧ decBool entropy (getLastOutcome w a) = true).
Proof.
  cbv zeta.
  destruct (record_shape_reachable this verify a cs)
    as [_ [[_ ->] | (el & -> & _ & _)]].
  - left. reflexivity.
  - cbn [dec64]. change (WIN_REWARD mod two64) with WIN_REWARD.
    change (0 mod two64) with 0.
    destruct (decBool entropy el); [| left; reflexivity].
    destruct (decBool entropy (getLastOutcome _ a)); [right | left]; split; reflexivity.
Qed.

(** X9 (an idle account shows one whole round). In every reachable state,
    when no round is active for an account that has resolved one, the stored
    outcome is the comparison of the imported guess with the bit
    [lastRoll >= 4] of the roll that is still stored, and the stored reward is
    [WIN_REWARD] if the stored [roundEligible] and the outcome are both true
    and 0 otherwise: roll, outcome and reward all belong to the same round. *)
Theorem idle_record_is_one_round
    (this : address) (verify : Verifier) (entropy : nat → Z)
    (a : address) (cs : list Call) :
  let w := perform_all this verify cs genesis in
  isGameActive w a = false →
  getLastOutcome w a ≠ BNull →
  (∃ ext g,
     getLastOutcome w a = BEq (BGe8 (getLastRoll w a) (U8Trivial 4)) (BImported ext g)
     ∧ decBool entropy (getLastOutcome w a)
       = eqb (4 <=? dec8 entropy (getLastRoll w a)) g)
  ∧ 1 ≤ dec8 entropy (getLastRoll w a) ≤ 6
  ∧ dec64 entropy (getLastReward w a)
    = if decBool entropy (roundEligibleOf w a) && decBool entropy (getLastOutcome w a)
      then WIN_REWARD else 0.
Proof.
  cbv zeta. intros Hidle Hres.
  destruct (record_shape_reachable this verify a cs) as [Hroll Hshape].
  destruct Hshape as [[Hnone _] | (el & Hreward & _ & Hround)]; [congruence |].
  destruct (Hround Hidle) as (-> & ext & g & Hout).
  split; [| split].
  - exists ext, g. split; [exact Hout |]. rewrite Hout. cbn [decBool dec8].
    change (4 mod two8) with 4. reflexivity.
  - destruct Hroll as [(_ & _ & Hnone & _) | [Hdice _]]; [congruence |].
    apply dice_roll_range. exact Hdice.
  - rewrite Hreward. cbn [dec64]. change (WIN_REWARD mod two64) with WIN_REWARD.
    change (0 mod two64) with 0.
    destruct (decBool entropy (roundEligibleOf _ a));
      destruct (decBool entropy (getLastOutcome _ a)); reflexivity.
Qed.

Lemma idle_record_is_one_round_witness :
  let w := perform_all demo_this demo_verify
             [CallBuyPoints demo_player ether; CallStartGame demo_player;
              CallSubmitGuess demo_player 55%N [1]] genesis in
  dec64 (λ _, 4) (getLastReward w demo_player)
  = if decBool (λ _, 4) (roundEligibleOf w demo_player)
       && decBool (λ _, 4) (getLastOutcome w demo_player)
    then WIN_REWARD else 0.
Proof.
  cbv zeta.
  apply (idle_record_is_one_round demo_this demo_verify (λ _, 4) demo_player
           [CallBuyPoints demo_player ether; CallStartGame demo_player;
            CallSubmitGuess demo_player 55%N [1]]).
  - reflexivity.
  - vm_compute. discriminate.
Defined.

(** X10 (the order in which handles appear). In every reachable state the
    four readable handles of an account leave the sentinel in a fixed order:
    [lastOutcome] and [lastReward] are the sentinel together or not at all, a
    resolved round implies a stored roll, a stored roll implies a stored
    balance and a stored [roundEligible], and an active round implies a stored
    roll. *)
Theorem handles_appear_in_order
    (this : address) (verify : Verifier) (a : address) (cs : list Call) :
  let w := perform_all this verify cs genesis in
  (getLastOutcome w a = BNull ↔ getLastReward w a = U64Null)
  ∧ (getLastOutcome w a ≠ BNull → getLastRoll w a ≠ U8Null)
  ∧ (getLastRoll w a = U8Null ↔ roundEligibleOf w a = BNull)
  ∧ (getLastRoll w a ≠ U8Null → getBalance w a ≠ U64Null)
  ∧ (isGameActive w a = true → getLastRoll w a ≠ U8Null).
Proof.
  cbv zeta.
  pose proof (balance_written_with_roll this verify a cs) as Hbal.
  destruct (record_shape_reachable this verify a cs) as [Hroll Hres].
  assert (Hdice : ∀ h, is_dice_roll h → h ≠ U8Null).
  { intros h [n ->]. discriminate. }
  split; [| split; [| split; [| split]]].
  - destruct Hres as [[-> ->] | (el & -> & Hout & _)]; [tauto |].
    split; [intros Hn; exfalso; exact (Hout Hn) | discriminate].
  - intros Ho. destruct Hroll as [(_ & _ & Hn & _) | [Hd _]]; [congruence |].
    apply Hdice. exact Hd.
  - destruct Hroll as [(-> & -> & _) | [Hd Hel]]; [tauto |].
    split; [intros Hn; exfalso; exact (Hdice _ Hd Hn) | intros Hn; exfalso; exact (Hel Hn)].
  - exact Hbal.
  - intros Hact. destruct Hroll as [(_ & _ & _ & Hidle) | [Hd _]]; [congruence |].
    apply Hdice. exact Hd.
Qed.

(** ** The event log tells the state of every round *)

Lemma count_started_app (a : address) (log more : list Event) :
  count_started a (log ++ more) = (count_started a log + count_started a more)%nat.
Proof.
  induction log as [| [p ? ? | p | p] log IH]; cbn [app count_started];
    [reflexivity | exact IH | | exact IH].
  case_decide; rewrite IH; reflexivity.
Qed.

Lemma count_resolved_app (a : address) (log more : list Event) :
  count_resolved a (log ++ more) = (count_resolved a log + count_resolved a more)%nat.
Proof.
  induction log as [| [p ? ? | p | p] log IH]; cbn [app count_resolved];
    [reflexivity | exact IH | exact IH |].
  case_decide; rewrite IH; reflexivity.
Qed.

(** X11 (the log mirrors the flag). In every reachable state and for every
    account, the [GameStarted] events of the account outnumber its
    [GuessSubmitted] events by one while a round is active and the two counts
    are equal while none is: rounds are started and resolved in alternation,
    and the public log alone tells whether a round is pending. *)
Theorem log_mirrors_flag
    (this : address) (verify : Verifier) (a : address) (cs : list Call) :
  let w := perform_all this verify cs genesis in
  count_started a (events w)
  = (count_resolved a (events w) + (if isGameActive w a then 1 else 0))%nat.
Proof.
  cbv zeta.
  apply (perform_all_ind this verify
           (λ w, count_started a (events w)
                 = (count_resolved a (events w)
                    + (if isGameActive w a then 1 else 0))%nat)).
  - reflexivity.
  - intros w c IH.
    destruct (perform_cases this verify w c)
      as [-> | [(v & _ & Hpost) | [(_ & Ha & Hpost) | (guess & pf & g & _ & Ha & _ & Hpost)]]];
      [exact IH | ..].
    + assert (Hflag : isGameActive (perform this verify w c) a = isGameActive w a).
      { rewrite Hpost. fields. reflexivity. }
      rewrite Hflag, Hpost. unfold buyPoints_post. cbn [events].
      rewrite count_started_app, count_resolved_app. cbn [count_started count_resolved].
      lia.
    + destruct (decide (sender_of c = a)) as [Hs | Hs].
      * rewrite Hs in *. rewrite Ha in IH. rewrite Hpost.
        destruct (startGame_post_self this a w) as (_ & _ & _ & _ & -> & _).
        unfold startGame_post. cbn [events].
        rewrite count_started_app, count_resolved_app. cbn [count_started count_resolved].
        rewrite decide_True by reflexivity. lia.
      * destruct (perform_other_account this verify a c w Hs) as (_ & _ & _ & _ & _ & ->).
        rewrite Hpost. unfold startGame_post. cbn [events].
        rewrite count_started_app, count_resolved_app. cbn [count_started count_resolved].
        rewrite decide_False by exact Hs. lia.
    + destruct (decide (sender_of c = a)) as [Hs | Hs].
      * rewrite Hs in *. rewrite Ha in IH. rewrite Hpost.
        destruct (submitGuess_post_self this a guess g w) as (_ & _ & _ & _ & -> & _).
        unfold submitGuess_post. cbn [events].
        rewrite count_started_app, count_resolved_app. cbn [count_started count_resolved].
        rewrite decide_True by reflexivity. lia.
      * destruct (perform_other_account this verify a c w Hs) as (_ & _ & _ & _ & _ & ->).
        rewrite Hpost. unfold submitGuess_post. cbn [events].
        rewrite count_started_app, count_resolved_app. cbn [count_started count_resolved].
        rewrite decide_False by exact Hs. lia.
Qed.

(** ** Grants along a run *)

Ltac post_acl :=
  unfold buyPoints_post, startGame_post, submitGuess_post; in_acl.

(** X12 (stored handles stay decryptable). In every reachable state and for
    every account, each of the four readable handles of its record is either
    the sentinel or granted to both the contract and the account, and its
    [roundEligible] handle is either the sentinel or granted to the contract:
    later calls, of this account or of others, never leave a stored handle
    without its grants. *)
Theorem stored_handles_stay_granted
    (this : address) (verify : Verifier) (a : address) (cs : list Call) :
  let w := perform_all this verify cs genesis in
  (getBalance w a = U64Null
   ∨ granted (fhe w) (HU64 (getBalance w a)) this
     ∧ granted (fhe w) (HU64 (getBalance w a)) a)
  ∧ (getLastRoll w a = U8Null
     ∨ granted (fhe w) (HU8 (getLastRoll w a)) this
       ∧ granted (fhe w) (HU8 (getLastRoll w a)) a)
  ∧ (getLastOutcome w a = BNull
     ∨ granted (fhe w) (HBool (getLastOutcome w a)) this
       ∧ granted (fhe w) (HBool (getLastOutcome w a)) a)
  ∧ (getLastReward w a = U64Null
     ∨ granted (fhe w) (HU64 (getLastReward w a)) this
       ∧ granted (fhe w) (HU64 (getLastReward w a)) a)
  ∧ (roundEligibleOf w a = BNull
     ∨ granted (fhe w) (HBool (roundEligibleOf w a)) this).
Proof.
  cbv zeta.
  apply (perform_all_ind this verify
           (λ w,
              (getBalance w a = U64Null
               ∨ granted (fhe w) (HU64 (getBalance w a)) this
                 ∧ granted (fhe w) (HU64 (getBalance w a)) a)
              ∧ (getLastRoll w a = U8Null
                 ∨ granted (fhe w) (HU8 (getLastRoll w a)) this
                   ∧ granted (fhe w) (HU8 (getLastRoll w a)) a)
              ∧ (getLastOutcome w a = BNull
                 ∨ granted (fhe w) (HBool (getLastOutcome w a)) this
                   ∧ granted (fhe w) (HBool (getLastOutcome w a)) a)
              ∧ (getLastReward w a = U64Null
                 ∨ granted (fhe w) (HU64 (getLastReward w a)) this
                   ∧ granted (fhe w) (HU64 (getLastReward w a)) a)
              ∧ (roundEligibleOf w a = BNull
                 ∨ granted (fhe w) (HBool (roundEligibleOf w a)) this))).
  - repeat split; left; reflexivity.
  - intros w c (Hb & Hr & Ho & Hw & He).
    pose proof (perform_keeps_grants this verify w c) as Hkeep.
    assert (Hold : ∀ h, granted (fhe w) h this ∧ granted (fhe w) h a →
                        granted (fhe (perform this verify w c)) h this
                        ∧ granted (fhe (perform this verify w c)) h a).
    { intros h [H1 H2]. split; apply Hkeep; assumption. }
    destruct (decide (sender_of c = a)) as [Hs | Hs].
    2:{ destruct (perform_other_account this verify a c w Hs)
          as (-> & -> & -> & -> & -> & _).
        repeat split;
          match goal with
          | H : _ ∨ _ |- _ ∨ granted _ ?h _ ∧ _ =>
              lazymatch type of H with
              | _ ∨ granted _ h _ ∧ _ =>
                  destruct H as [H | H]; [left; exact H | right; apply Hold; exact H]
              end
          | _ => idtac
          end.
        destruct He as [He | He]; [left; exact He | right; apply Hkeep; exact He]. }
    rewrite <- Hs in *. clear Hs.
    destruct (perform_cases this verify w c)
      as [Heq | [(v & _ & Hpost) | [(_ & _ & Hpost) | (guess & pf & g & _ & _ & _ & Hpost)]]].
    + rewrite Heq. tauto.
    + destruct (buyPoints_post_self this (sender_of c) v w) as (E1 & E2 & E3 & E4 & _ & E6).
      cbv zeta in *. rewrite <- Hpost in E1, E2, E3, E4, E6.
      rewrite E1, E2, E3, E4, E6.
      split; [right; rewrite Hpost; split; post_acl |].
      split; [destruct Hr as [? | ?]; [left | right; apply Hold]; assumption |].
      split; [destruct Ho as [? | ?]; [left | right; apply Hold]; assumption |].
      split; [destruct Hw as [? | ?]; [left | right; apply Hold]; assumption |].
      destruct He as [? | ?]; [left | right; apply Hkeep]; assumption.
    + destruct (startGame_post_self this (sender_of c) w) as (E1 & E2 & E3 & E4 & _ & E6).
      cbv zeta in *. rewrite <- Hpost in E1, E2, E3, E4, E6.
      rewrite E1, E2, E3, E4, E6.
      split; [right; rewrite Hpost; split; post_acl |].
      split; [right; rewrite Hpost; split; post_acl |].
      split; [destruct Ho as [? | ?]; [left | right; apply Hold]; assumption |].
      split; [destruct Hw as [? | ?]; [left | right; apply Hold]; assumption |].
      right. rewrite Hpost. post_acl.
    + destruct (submitGuess_post_self this (sender_of c) guess g w)
        as (E1 & E2 & E3 & E4 & _ & E6).
      cbv zeta in *. rewrite <- Hpost in E1, E2, E3, E4, E6.
      rewrite E1, E2, E3, E4, E6.
      split; [right; rewrite Hpost; split; post_acl |].
      split; [destruct Hr as [? | ?]; [left | right; apply Hold]; assumption |].
      split; [right; rewrite Hpost; split; post_acl |].
      split; [right; rewrite Hpost; split; post_acl |].
      destruct He as [? | ?]; [left | right; apply Hkeep]; assumption.
Qed.

(** * Further properties of the client refresh *)

(** X13 (refreshing twice). A refresh run again in the same environment, on
    the state the first run left, leaves that state as it is and sends the
    same batches: the displayed fields depend on the environment and, for
    the fields a run does not write, on what was displayed before. *)
Theorem refresh_idempotent
    {number : Type} (Number : string → number) (CONTRACT_ADDRESS : string)
    (env : Client.Env) (v : Client.View) :
  Client.refreshPlayerData Number CONTRACT_ADDRESS env
    (fst (Client.refreshPlayerData Number CONTRACT_ADDRESS env v))
  = Client.refreshPlayerData Number CONTRACT_ADDRESS env v.
Proof.
  unfold Client.refreshPlayerData.
  destruct (Client.publicClient env) as [[r | msg] |]; [| | reflexivity].
  2:{ destruct (Client.address env); [| reflexivity].
      destruct (negb (Client.canUseWallet CONTRACT_ADDRESS env)); reflexivity. }
  destruct (Client.address env); [| reflexivity].
  destruct (negb (Client.canUseWallet CONTRACT_ADDRESS env)); [reflexivity |].
  destruct (negb (Client.canDecrypt CONTRACT_ADDRESS env)); [reflexivity |].
  destruct (bool_decide _); [reflexivity |].
  destruct (Client.decryptHandles CONTRACT_ADDRESS env _) as [[d | msg] sent];
    [| reflexivity].
  cbn [fst]. f_equal. unfold Client.decode, Client.finally.
  destruct (bool_decide (Client.encryptedBalance r ≠ Client.ZERO_HASH));
    destruct (bool_decide (Client.encryptedRoll r ≠ Client.ZERO_HASH));
    destruct (bool_decide (Client.encryptedOutcome r ≠ Client.ZERO_HASH));
    destruct (bool_decide (Client.encryptedReward r ≠ Client.ZERO_HASH));
    cbv zeta;
    destruct (d !! Client.encryptedOutcome r); reflexivity.
Qed.

(** X14 (what a refresh may send). A refresh sends at most one batch to the
    decryption service. It sends one only when the wallet can decrypt, the
    five reads resolved, the key pair was generated, the typed data was
    created, the signer promise resolved to a signer and the signer signed;
    the batch then holds between one and four pairs, and every pair is a
    handle other than the sentinel with the configured contract address. *)
Theorem refresh_batch_shape
    {number : Type} (Number : string → number) (CONTRACT_ADDRESS : string)
    (env : Client.Env) (v : Client.View) :
  let sent := snd (Client.refreshPlayerData Number CONTRACT_ADDRESS env v) in
  (length sent ≤ 1)%nat
  ∧ ∀ batch, batch ∈ sent →
      Client.canDecrypt CONTRACT_ADDRESS env = true
      ∧ (∃ r, Client.publicClient env = Some (Client.Resolved r))
      ∧ (∃ inst keypair eip712 signer signature,
           Client.instance env = Some inst
           ∧ Client.generateKeypair inst = Client.Resolved keypair
           ∧ Client.createEIP712 inst (Client.publicKey keypair) [CONTRACT_ADDRESS]
               (Client.startTimeStamp env) "7" = Client.Resolved eip712
           ∧ Client.signerPromise env = Some (Client.Resolved (Some signer))
           ∧ Client.signTypedData signer (Client.domain eip712)
               (Client.UserDecryptRequestVerification eip712) (Client.message eip712)
             = Client.Resolved signature)
      ∧ (1 ≤ length batch ≤ 4)%nat
      ∧ Forall (λ pair, pair.1 ≠ Client.ZERO_HASH ∧ pair.2 = CONTRACT_ADDRESS) batch.
Proof.
  cbv zeta. unfold Client.refreshPlayerData, Client.decryptHandles.
  assert (Hnone : ∀ P : Client.Batch → Prop,
            (length (@nil Client.Batch) ≤ 1)%nat ∧ ∀ batch, batch ∈ @nil Client.Batch → P batch).
  { intros P. split; [cbn; lia | intros ? H; apply elem_of_nil in H; destruct H]. }
  destruct (Client.publicClient env) as [[r | msg] |]; [| | apply Hnone].
  2:{ destruct (Client.address env);
        [destruct (negb (Client.canUseWallet CONTRACT_ADDRESS env)) |]; apply Hnone. }
  destruct (Client.address env) as [account |]; [| apply Hnone].
  destruct (negb (Client.canUseWallet CONTRACT_ADDRESS env)); [apply Hnone |].
  destruct (Client.canDecrypt CONTRACT_ADDRESS env) eqn:Hcan; cbn [negb];
    [| apply Hnone].
  set (wanted := filter _ _).
  destruct (bool_decide (length wanted = 0%nat)) eqn:Hlen; [apply Hnone |].
  apply bool_decide_eq_false in Hlen.
  destruct (Client.instance env) as [inst |]; [| apply Hnone].
  destruct (Client.generateKeypair inst) as [keypair | ?] eqn:Hkey; [| apply Hnone].
  cbv zeta.
  destruct (Client.createEIP712 inst _ _ _ _) as [eip712 | ?] eqn:Heip; [| apply Hnone].
  destruct (Client.signerPromise env) as [[[signer |] | ?] |]; [| apply Hnone ..].
  destruct (Client.signTypedData signer _ _ _) as [signature | ?] eqn:Hsign;
    [| apply Hnone].
  set (pairs := map (λ handle : string, (handle, CONTRACT_ADDRESS)) wanted).
  match goal with
  | |- context [Client.userDecrypt inst ?req] =>
      destruct (Client.userDecrypt inst req) as [d | msg]
  end; cbn [fst snd];
    (split; [cbn; lia |]);
    intros batch Hin; apply list_elem_of_singleton in Hin as ->;
    (split; [reflexivity |]); (split; [exists r; reflexivity |]);
    (split; [exists inst, keypair, eip712, signer, signature; repeat split; assumption |]);
    subst pairs; rewrite length_map;
    (split;
      [ split; [lia |]; subst wanted;
        etransitivity; [apply length_filter |]; cbn; lia
      | apply Forall_forall; intros [h addr] Hp;
        apply list_elem_of_In, in_map_iff in Hp as (h' & Heq & Hin);
        injection Heq as <- <-; cbn [fst snd]; split; [| reflexivity];
        apply list_elem_of_In in Hin; subst wanted;
        apply list_elem_of_filter in Hin as [Hne _]; exact Hne ]).
Qed.

(** X15 (a failed refresh keeps what is displayed). When the five reads
    reject, or when they resolve and the decryption is attempted but rejects
    (no signer, or the service refuses), the refresh sets the status message
    "Unable to refresh encrypted data.", resets the busy flag and leaves the
    displayed balance, roll, outcome and reward as they were; the round flag
    follows the chain if the reads resolved and is left alone otherwise. *)
Theorem refresh_failure_keeps_display
    {number : Type} (Number : string → number) (CONTRACT_ADDRESS : string)
    (env : Client.Env) (v : Client.View) :
  Client.canUseWallet CONTRACT_ADDRESS env = true →
  let v' := fst (Client.refreshPlayerData Number CONTRACT_ADDRESS env v) in
  let kept :=
    Client.balance v' = Client.balance v
    ∧ Client.lastRoll v' = Client.lastRoll v
    ∧ Client.lastOutcome v' = Client.lastOutcome v
    ∧ Client.lastReward v' = Client.lastReward v
    ∧ Client.statusMessage v' = Some "Unable to refresh encrypted data."
    ∧ Client.busyRefresh v' = false in
  (∀ message,
     Client.publicClient env = Some (Client.Rejected message) →
     kept ∧ Client.gameActive v' = Client.gameActive v)
  ∧ (∀ r message handles,
     Client.publicClient env = Some (Client.Resolved r) →
     Client.canDecrypt CONTRACT_ADDRESS env = true →
     handles = filter (λ handle, handle ≠ Client.ZERO_HASH)
                 [Client.encryptedBalance r; Client.encryptedRoll r;
                  Client.encryptedOutcome r; Client.encryptedReward r] →
     handles ≠ [] →
     fst (Client.decryptHandles CONTRACT_ADDRESS env handles) = Client.Rejected message →
     kept ∧ Client.gameActive v' = Client.active r).
Proof.
  intros Hwallet. cbv zeta.
  assert (Haddr : is_Some (Client.address env)).
  { unfold Client.canUseWallet in Hwallet.
    repeat (apply andb_true_iff in Hwallet as [Hwallet ?]).
    match goal with
    | H : bool_decide (is_Some (Client.address env)) = true |- _ =>
        apply bool_decide_eq_true in H; exact H
    end. }
  destruct Haddr as [addr Haddr].
  unfold Client.refreshPlayerData. rewrite Haddr, Hwallet. cbn [negb].
  split.
  - intros message ->. cbn. repeat split; reflexivity.
  - intros r message handles -> Hcan -> Hne Hrej. rewrite Hcan. cbn [negb].
    destruct (bool_decide _) eqn:Hlen.
    { apply bool_decide_eq_true in Hlen. exfalso. apply Hne.
      destruct (filter _ _); [reflexivity | discriminate]. }
    destruct (Client.decryptHandles CONTRACT_ADDRESS env _) as [[d | msg] sent];
      [discriminate |].
    cbn. repeat split; reflexivity.
Qed.

Lemma refresh_failure_keeps_display_witness :
  let v' := fst (Client.refreshPlayerData (λ s : string, Z.of_nat (String.length s))
                   demo_contract demo_env_offline demo_view) in
  Client.lastOutcome v' = Some true
  ∧ Client.statusMessage v' = Some "Unable to refresh encrypted data.".
Proof.
  cbv zeta.
  destruct (refresh_failure_keeps_display (λ s : string, Z.of_nat (String.length s))
              demo_contract demo_env_offline demo_view) as [Hrej _]; [reflexivity |].
  destruct (Hrej "network") as ((_ & _ & Ho & _ & Hs & _) & _); [reflexivity |].
  split; [exact Ho | exact Hs].
Defined.

(** X16 (a wallet that cannot decrypt). When the wallet is usable and the
    five reads resolve, the refresh always shows the round flag read from the
    chain and resets the busy flag, whatever happens to the decryption; and
    when the wallet cannot decrypt (no relayer instance, no signer promise, or
    the relayer still loading) it clears balance, roll, outcome and reward to
    absent, sends nothing, and leaves the status message alone. *)
Theorem refresh_without_decrypt
    {number : Type} (Number : string → number) (CONTRACT_ADDRESS : string)
    (env : Client.Env) (v : Client.View) (r : Client.Reads) :
  Client.canUseWallet CONTRACT_ADDRESS env = true →
  Client.publicClient env = Some (Client.Resolved r) →
  let result := Client.refreshPlayerData Number CONTRACT_ADDRESS env v in
  Client.gameActive (fst result) = Client.active r
  ∧ Client.busyRefresh (fst result) = false
  ∧ (Client.canDecrypt CONTRACT_ADDRESS env = false →
     snd result = []
     ∧ Client.balance (fst result) = None
     ∧ Client.lastRoll (fst result) = None
     ∧ Client.lastOutcome (fst result) = None
     ∧ Client.lastReward (fst result) = None
     ∧ Client.statusMessage (fst result) = Client.statusMessage v).
Proof.
  intros Hwallet Hreads. cbv zeta.
  assert (Haddr : is_Some (Client.address env)).
  { unfold Client.canUseWallet in Hwallet.
    repeat (apply andb_true_iff in Hwallet as [Hwallet ?]).
    match goal with
    | H : bool_decide (is_Some (Client.address env)) = true |- _ =>
        apply bool_decide_eq_true in H; exact H
    end. }
  destruct Haddr as [addr Haddr].
  unfold Client.refreshPlayerData. rewrite Hreads, Haddr, Hwallet. cbn [negb].
  destruct (Client.canDecrypt CONTRACT_ADDRESS env); cbn [negb].
  - assert (Hmapped : ∀ d w,
              Client.gameActive (Client.decode Number r d w) = Client.gameActive w).
    { intros d w. unfold Client.decode.
      repeat (destruct (bool_decide _)); cbv zeta;
        destruct (d !! Client.encryptedOutcome r); reflexivity. }
    destruct (bool_decide _).
    + cbn. split; [| split; [| intros; discriminate]]; reflexivity.
    + destruct (Client.decryptHandles CONTRACT_ADDRESS env _) as [[d | msg] sent];
        cbn [fst snd Client.finally Client.set_busyRefresh Client.gameActive
             Client.busyRefresh].
      * rewrite Hmapped. cbn. split; [| split; [| intros; discriminate]]; reflexivity.
      * cbn. split; [| split; [| intros; discriminate]]; reflexivity.
  - cbn. repeat split; reflexivity.
Qed.

Lemma refresh_without_decrypt_witness :
  let result := Client.refreshPlayerData (λ s : string, Z.of_nat (String.length s))
                  demo_contract (demo_env_loading demo_idle_reads) demo_view in
  snd result = [] ∧ Client.lastOutcome (fst result) = None.
Proof.
  cbv zeta.
  destruct (refresh_without_decrypt (λ s : string, Z.of_nat (String.length s))
              demo_contract (demo_env_loading demo_idle_reads) demo_view demo_idle_reads)
    as (_ & _ & Hclear); [reflexivity | reflexivity |].
  destruct Hclear as (Hs & _ & _ & Ho & _); [reflexivity |].
  split; [exact Hs | exact Ho].
Defined.

(** ** A pending round cannot be re-rolled *)

Lemma perform_round_open
    (this : address) (verify : Verifier) (a : address) (c : Call) (w : World) :
  isGameActive w a = true →
  leaves_round_open this verify a c →
  getLastRoll (perform this verify w c) a = getLastRoll w a
  ∧ roundEligibleOf (perform this verify w c) a = roundEligibleOf w a
  ∧ isGameActive (perform this verify w c) a = true.
Proof.
  intros Hact Hopen. destruct (decide (sender_of c = a)) as [Hs | Hs].
  2:{ destruct (perform_other_account this verify a c w Hs)
        as (_ & -> & _ & _ & -> & ->). repeat split. exact Hact. }
  destruct (perform_cases this verify w c)
    as [-> | [(v & _ & ->) | [(_ & Hidle & _) | (guess & pf & g & Hc & _ & Hp & _)]]].
  - repeat split. exact Hact.
  - rewrite Hs.
    destruct (buyPoints_post_self this a v w) as (-> & -> & _ & _ & -> & _).
    repeat split. exact Hact.
  - rewrite Hs in Hidle. congruence.
  - rewrite Hc in Hopen. cbn [leaves_round_open] in Hopen.
    rewrite (Hopen Hs) in Hp. discriminate.
Qed.

(** X17 (no re-roll). While a round of an account is pending, no call
    changes its roll or its eligibility flag or closes the round, except a
    [submitGuess] of the account itself with an authentic proof: funding,
    calls of other accounts, the account's own [startGame] attempts (which
    fail) and its guesses with rejected proofs all leave [lastRoll],
    [roundEligible] and the active flag as they are. *)
Theorem pending_round_is_fixed
    (this : address) (verify : Verifier) (a : address) (cs : list Call) (w : World) :
  isGameActive w a = true →
  Forall (leaves_round_open this verify a) cs →
  getLastRoll (perform_all this verify cs w) a = getLastRoll w a
  ∧ roundEligibleOf (perform_all this verify cs w) a = roundEligibleOf w a
  ∧ isGameActive (perform_all this verify cs w) a = true.
Proof.
  intros Hact. induction cs as [| c cs IH] using rev_ind; intros Hcs.
  - repeat split. exact Hact.
  - apply Forall_app in Hcs as [Hcs Hc]. apply Forall_inv in Hc.
    destruct (IH Hcs) as (Hroll & Hel & Hstill).
    rewrite perform_all_snoc.
    destruct (perform_round_open this verify a c _ Hstill Hc) as (-> & -> & ->).
    repeat split; assumption.
Qed.

Lemma pending_round_is_fixed_witness :
  getLastRoll
    (perform_all demo_this demo_verify
       [CallStartGame demo_player; CallSubmitGuess demo_player 55%N [];
        CallBuyPoints demo_player ether] demo_pending) demo_player
  = getLastRoll demo_pending demo_player.
Proof.
  apply (pending_round_is_fixed demo_this demo_verify demo_player
           [CallStartGame demo_player; CallSubmitGuess demo_player 55%N [];
            CallBuyPoints demo_player ether] demo_pending).
  - reflexivity.
  - repeat constructor.
Defined.
